(** * Historical Temperature Visualizer: the aggregation and trend pipeline

    A shallow embedding of the data pipeline of [v1.0.py] (the body of the
    "Visualize Temperature Data" branch, lines 70-178): the yearly averages
    ([groupby('year')['max_temp'].mean()]), the linear trend
    ([np.polyfit(..., 1)[0]] and its classification), the summary metrics
    ([mean], [max], [min] of the [max_temp] column) and the heatmap grid
    ([df.pivot]).

    Numbers.  A pandas [float64] cell is either a number or [NaN], the marker
    pandas uses for a missing value.  In the main model numbers are the
    rationals they denote and arithmetic is exact; [NaN] is a value of its
    own, with the comparison and propagation rules Python gives it.  That
    model is faithful for everything that selects, compares, counts or
    copies cells (labels, grid, minimum, maximum, missingness, control
    flow).  It is not faithful for the last digits of a computed sum,
    quotient or fitted coefficient: module [Binary64] evaluates the mean in
    binary64 where that matters. *)

From Stdlib Require Import List ZArith QArith Qminmax Qabs Lia Lqa Bool.
From Stdlib Require Import Sorting.Permutation Sorting.Sorted.
From Stdlib Require Strings.String.
From Stdlib Require Floats.
Import ListNotations.
Open Scope Q_scope.

(** ** Float cells *)

Inductive fval : Type :=
| Num (q : Q)
| NaN.

(** Equality of cells up to the representation of a rational. *)
Definition feq (a b : fval) : Prop :=
  match a, b with
  | Num x, Num y => x == y
  | NaN, NaN => True
  | _, _ => False
  end.

Infix "=f=" := feq (at level 70, no associativity).

Definition isna (v : fval) : bool :=
  match v with NaN => true | Num _ => false end.

Definition notna (v : fval) : bool := negb (isna v).

(** Python's [a > b], [a < b], [a == b], [a <= b] on floats: every
    comparison with [NaN] is false. *)
Definition fgt (a b : fval) : bool :=
  match a, b with
  | Num x, Num y => match x ?= y with Gt => true | _ => false end
  | _, _ => false
  end.

Definition flt (a b : fval) : bool :=
  match a, b with
  | Num x, Num y => match x ?= y with Lt => true | _ => false end
  | _, _ => false
  end.

Definition feqb (a b : fval) : bool :=
  match a, b with
  | Num x, Num y => Qeq_bool x y
  | _, _ => false
  end.

Definition fle (a b : fval) : bool :=
  match a, b with
  | Num x, Num y => Qle_bool x y
  | _, _ => false
  end.

(** [a * b] and [abs(a)]: [NaN] propagates. *)
Definition fmul (a b : fval) : fval :=
  match a, b with
  | Num x, Num y => Num (x * y)
  | _, _ => NaN
  end.

Definition fabs (a : fval) : fval :=
  match a with
  | Num x => Num (Qabs x)
  | NaN => NaN
  end.

(** ** The data frame

    [fetch_historical_weather_data] (module [utils], an external
    collaborator) returns a frame with the columns the pipeline reads:
    ['year'], ['day'] and ['max_temp']. *)

Record Row : Type := mkRow {
  year : Z;
  day : Z;
  max_temp : fval
}.

Definition DataFrame : Type := list Row.

(** Exceptions the library calls of the pipeline can raise; all of them are
    caught by [except Exception as e] (line 175). *)
Inductive exn : Type :=
| TypeError
| ValueError
| LinAlgError.

Inductive result (A : Type) : Type :=
| Ok (a : A)
| Raise (e : exn).

Arguments Ok {A} a.
Arguments Raise {A} e.

Definition bind {A B : Type} (r : result A) (k : A -> result B) : result B :=
  match r with
  | Ok a => k a
  | Raise e => Raise e
  end.

Notation "x <- r ;; k" := (bind r (fun x => k))
  (at level 61, r at next level, right associativity).

(** ** pandas reductions of a column (skipna=True, the default) *)

Fixpoint Qsum (l : list Q) : Q :=
  match l with
  | [] => 0
  | x :: t => x + Qsum t
  end.

Definition fillna0 (v : fval) : Q :=
  match v with Num q => q | NaN => 0 end.

(** Number of non-null cells. *)
Definition count (s : list fval) : nat := length (filter notna s).

Definition Qnat (n : nat) : Q := inject_Z (Z.of_nat n).

(** [Series.mean()]: missing cells are masked out (filled with 0 for the
    sum), the sum is divided by the number of non-null cells, and the result
    is [NaN] when there is none. *)
Definition Series_mean (s : list fval) : fval :=
  match count s with
  | O => NaN
  | S _ => Num (Qsum (map fillna0 s) / Qnat (count s))
  end.

(** [Series.max()] and [Series.min()]: the extreme of the non-null cells,
    [NaN] when there is none. *)
Fixpoint Series_max (s : list fval) : fval :=
  match s with
  | [] => NaN
  | v :: t =>
      match v, Series_max t with
      | Num a, Num b => Num (Qmax a b)
      | Num a, NaN => Num a
      | NaN, m => m
      end
  end.

Fixpoint Series_min (s : list fval) : fval :=
  match s with
  | [] => NaN
  | v :: t =>
      match v, Series_min t with
      | Num a, Num b => Num (Qmin a b)
      | Num a, NaN => Num a
      | NaN, m => m
      end
  end.

(** ** Sorted distinct labels

    [groupby] (sort=True) and [pivot] both order their labels ascending and
    keep each label once. *)

Fixpoint insert_uniq (x : Z) (l : list Z) : list Z :=
  match l with
  | [] => [x]
  | y :: t =>
      match (x ?= y)%Z with
      | Lt => x :: y :: t
      | Eq => y :: t
      | Gt => y :: insert_uniq x t
      end
  end.

Definition sort_uniq (l : list Z) : list Z := fold_right insert_uniq [] l.

(** ** Line 86: [yearly_avg = df.groupby('year')['max_temp'].mean().reset_index()] *)

Definition group (df : DataFrame) (y : Z) : list fval :=
  map max_temp (filter (fun r => (year r =? y)%Z) df).

Definition YearlyAvg : Type := list (Z * fval).

Definition groupby_mean (df : DataFrame) : YearlyAvg :=
  map (fun y => (y, Series_mean (group df y))) (sort_uniq (map year df)).

(** ** Line 93: [np.polyfit(yearly_avg['year'], yearly_avg['max_temp'], 1)]

    numpy scales the two columns of the Vandermonde matrix of [x] to unit
    norm, hands the system to [lstsq] and unscales the coefficients:
    - an empty [x], or columns of different lengths, raise [TypeError];
    - when every [x] is 0 the norm of the first column is 0, the scaling
      divides 0 by 0, and [lstsq] raises [LinAlgError] on the matrix, whatever
      [y] holds;
    - otherwise [y] is not screened: a [NaN] in [y] runs through the solve
      and both coefficients come out [NaN];
    - otherwise, when [x] has two distinct entries, the result is the
      least-squares line (here: the normal equations in exact arithmetic);
    - otherwise the system is rank deficient (all [x] equal and not 0, in
      particular a single point) and [lstsq] returns the minimum-norm
      solution of the scaled system, which unscales to slope
      [mean(y) / (2 x)] and intercept [mean(y) / 2]; numpy only warns
      ([RankWarning]). *)

Fixpoint numeric (s : list fval) : option (list Q) :=
  match s with
  | [] => Some []
  | NaN :: _ => None
  | Num q :: t =>
      match numeric t with
      | Some l => Some (q :: l)
      | None => None
      end
  end.

Fixpoint Qdot (xs ys : list Q) : Q :=
  match xs, ys with
  | x :: xt, y :: yt => x * y + Qdot xt yt
  | _, _ => 0
  end.

(** Numerator and denominator of the normal-equation slope. *)
Definition ls_num (xs ys : list Q) : Q :=
  Qnat (length xs) * Qdot xs ys - Qsum xs * Qsum ys.

Definition ls_den (xs : list Q) : Q :=
  Qnat (length xs) * Qdot xs xs - Qsum xs * Qsum xs.

Definition polyfit (x : list Z) (y : list fval) : result (fval * fval) :=
  match x with
  | [] => Raise TypeError
  | x0 :: _ =>
      if negb (length x =? length y)%nat then Raise TypeError
      else if forallb (Z.eqb 0) x then Raise LinAlgError
      else
        match numeric y with
        | None => Ok (NaN, NaN)
        | Some ys =>
            let xs := map inject_Z x in
            let n := Qnat (length xs) in
            if Qeq_bool (ls_den xs) 0 then
              Ok (Num (Qsum ys / n / (2 * inject_Z x0)),
                  Num (Qsum ys / n / 2))
            else
              let a := ls_num xs ys / ls_den xs in
              Ok (Num a, Num ((Qsum ys - a * Qsum xs) / n))
        end
  end.

(** [slope = np.polyfit(...)[0]] *)
Definition slope (yearly_avg : YearlyAvg) : result fval :=
  c <- polyfit (map fst yearly_avg) (map snd yearly_avg) ;; Ok (fst c).

(** ** Lines 104-105: classification of the trend *)

Inductive Direction : Type :=
| Rising
| Falling
| Stable.

(** ["Rising" if slope > 0 else "Falling" if slope < 0 else "Stable"] *)
Definition trend_direction (slope : fval) : Direction :=
  if fgt slope (Num 0) then Rising
  else if flt slope (Num 0) then Falling
  else Stable.

(** [abs(slope * 10)] *)
Definition trend_magnitude (slope : fval) : fval :=
  fabs (fmul slope (Num 10)).

Record Trend : Type := mkTrend {
  t_slope : fval;
  t_direction : Direction;
  t_magnitude : fval
}.

(** The trend estimator: the fit of line 93 followed by lines 104-105. *)
Definition trend (yearly_avg : YearlyAvg) : result Trend :=
  s <- slope yearly_avg ;;
  Ok (mkTrend s (trend_direction s) (trend_magnitude s)).

(** ** Lines 99-101: the summary metrics *)

Record Summary : Type := mkSummary {
  overall_mean : fval;
  overall_max : fval;
  overall_min : fval
}.

Definition summary (df : DataFrame) : Summary :=
  let col := map max_temp df in
  mkSummary (Series_mean col) (Series_max col) (Series_min col).

(** ** Line 117: [heatmap_data = df.pivot(index='day', columns='year', values='max_temp')] *)

Record Grid : Type := mkGrid {
  index : list Z;
  columns : list Z;
  cells : list (list fval)
}.

Definition key_eqb (a b : Z * Z) : bool :=
  ((fst a =? fst b) && (snd a =? snd b))%Z.

Fixpoint has_duplicates (l : list (Z * Z)) : bool :=
  match l with
  | [] => false
  | k :: t => existsb (key_eqb k) t || has_duplicates t
  end.

Definition keys (df : DataFrame) : list (Z * Z) :=
  map (fun r => (day r, year r)) df.

(** The cell at a (day, year) label pair: the value of the row carrying that
    pair, [NaN] when the frame has no such row. *)
Definition cell (df : DataFrame) (d y : Z) : fval :=
  match find (fun r => key_eqb (day r, year r) (d, y)) df with
  | Some r => max_temp r
  | None => NaN
  end.

(** [pivot] refuses an index with duplicate entries ([ValueError]: "Index
    contains duplicate entries, cannot reshape"). *)
Definition pivot (df : DataFrame) : result Grid :=
  if has_duplicates (keys df) then Raise ValueError
  else
    let idx := sort_uniq (map day df) in
    let cols := sort_uniq (map year df) in
    Ok (mkGrid idx cols (map (fun d => map (fun y => cell df d y) cols) idx)).

(** ** Lines 75-76: the 30-year window *)

Definition start_year (current_year : Z) : Z := (current_year - 30)%Z.

Definition in_window (current_year y : Z) : bool :=
  ((start_year current_year <=? y) && (y <=? current_year))%Z.

(** ** Lines 79-176: the data part of the "Visualize" branch

    In source order: the guard [df is not None and not df.empty], the yearly
    averages, the fit, the five [st.metric] widgets, then the pivot.  An
    exception raised on the way is caught at line 175 and reported with
    [st.error]; widgets already emitted stay on the page.  The plotly
    rendering that follows is presentation and is not modelled. *)

Record Metrics : Type := mkMetrics {
  m_summary : Summary;
  m_trend : Trend;
  m_total_years : nat
}.

Inductive Outcome : Type :=
| NoData                                      (* line 174 *)
| Failed (shown : option Metrics) (e : exn)   (* line 176 *)
| Displayed (m : Metrics) (yearly_avg : YearlyAvg) (heatmap_data : Grid).

Definition visualize (df : option DataFrame) : Outcome :=
  match df with
  | None | Some [] => NoData
  | Some df =>
      let yearly_avg := groupby_mean df in
      match slope yearly_avg with
      | Raise e => Failed None e
      | Ok s =>
          let m := mkMetrics (summary df)
                     (mkTrend s (trend_direction s) (trend_magnitude s))
                     (length yearly_avg) in
          match pivot df with
          | Raise e => Failed (Some m) e
          | Ok heatmap_data => Displayed m yearly_avg heatmap_data
          end
      end
  end.

(** ** Evaluation on small frames *)

Definition df_single_year : DataFrame :=
  [mkRow 2020 1 (Num 15); mkRow 2020 2 (Num 17)].

Definition df_missing_year : DataFrame :=
  [mkRow 2020 1 NaN; mkRow 2020 2 NaN; mkRow 2021 1 (Num 10)].

Definition ya_three : YearlyAvg :=
  [(2021%Z, Num 20); (2022%Z, Num 21); (2023%Z, Num 22)].

(** ** Notions the properties are stated with *)

(** The cell in row [i], column [j] of the matrix. *)
Definition grid_cell (g : Grid) (i j : nat) : option fval :=
  match nth_error (cells g) i with
  | Some row => nth_error row j
  | None => None
  end.

(** The non-missing values of a column, in order: "every non-missing
    Observation value". *)
Fixpoint non_missing (s : list fval) : list Q :=
  match s with
  | [] => []
  | Num q :: t => q :: non_missing t
  | NaN :: t => non_missing t
  end.

(** Monotonic tables: every entry compares [<=] (or [>=]) with the next, by
    Python's comparison of floats. *)
Fixpoint pairwise (cmp : fval -> fval -> bool) (l : list fval) : bool :=
  match l with
  | a :: (b :: _) as t => cmp a b && pairwise cmp t
  | _ => true
  end.

Definition non_decreasing (l : list fval) : bool := pairwise fle l.

Definition non_increasing (l : list fval) : bool :=
  pairwise (fun a b => fle b a) l.

Definition first_avg (ya : YearlyAvg) : fval := hd NaN (map snd ya).

Definition last_avg (ya : YearlyAvg) : fval := last (map snd ya) NaN.

(** [cross x0 y0 xs ys] is the sum of [(x - x0) * (y - y0)] over the points
    [(x, y)]: what the point [(x0, y0)] adds to the numerator of the slope. *)
Fixpoint cross (x0 y0 : Q) (xs ys : list Q) : Q :=
  match xs, ys with
  | x :: xt, y :: yt => (x - x0) * (y - y0) + cross x0 y0 xt yt
  | _, _ => 0
  end.

(** Sum of squared residuals of the line [a * x + b] on the points. *)
Fixpoint ssr (a b : Q) (xs ys : list Q) : Q :=
  match xs, ys with
  | x :: xt, y :: yt => (y - (a * x + b)) * (y - (a * x + b)) + ssr a b xt yt
  | _, _ => 0
  end.

(** ** More small frames *)

Definition df_february : DataFrame :=
  [mkRow 2019 28 (Num 4); mkRow 2020 28 (Num 5); mkRow 2020 29 (Num 6);
   mkRow 2021 28 NaN].

Definition df_out_of_range : DataFrame :=
  [mkRow 1800 40 (Num 12); mkRow 1801 0 (Num 13)].

Definition df_duplicate : DataFrame :=
  [mkRow 2020 1 (Num 12); mkRow 2020 1 (Num 13); mkRow 2021 1 (Num 14)].

Definition df_year_zero : DataFrame :=
  [mkRow 0 1 (Num 5); mkRow 0 2 NaN].


Definition df_uneven : DataFrame :=
  [mkRow 2020 1 (Num 0); mkRow 2020 2 (Num 0); mkRow 2021 1 (Num 3)].

Definition df_rising : DataFrame :=
  [mkRow 2021 1 (Num 7); mkRow 2019 1 (Num 4); mkRow 2020 1 (Num 5);
   mkRow 2020 2 (Num 6)].

(** * The rest of the script *)

Module App.

Import String.

(** ** Lines 62-67: the month *)

Definition months : list String.string :=
  ["January"; "February"; "March"; "April"; "May"; "June";
   "July"; "August"; "September"; "October"; "November"; "December"]%string.

(** [list.index]: the position of the first occurrence, [ValueError] when
    there is none. *)
Fixpoint list_index (s : String.string) (l : list String.string)
  : result nat :=
  match l with
  | [] => Raise ValueError
  | x :: t =>
      if String.eqb x s then Ok O
      else i <- list_index s t ;; Ok (S i)
  end.

(** [month_number = months.index(selected_month) + 1] *)
Definition month_number (selected_month : String.string) : result Z :=
  i <- list_index selected_month months ;; Ok (Z.of_nat i + 1)%Z.

(** ** Lines 29-59: the location *)

Inductive LocationInputType : Type :=
| CityName
| Coordinates.

(** What [geolocator.geocode(city_name)] can do: return a location, return
    [None], raise one of the two exceptions the script catches, or raise
    another one. *)
Inductive GeocodeResult : Type :=
| Location (latitude longitude : Q) (address : String.string)
| NoMatch
| GeocoderTimedOut
| GeocoderUnavailable
| GeocoderOtherError.

Inductive SidebarMessage : Type :=
| SidebarLocated (address : String.string) (latitude longitude : Q)
| SidebarNotFound
| SidebarTimedOut.

(** The state of the sidebar widgets. *)
Record Inputs : Type := mkInputs {
  location_input_type : LocationInputType;
  city_name : String.string;
  latitude_input : Q;
  longitude_input : Q;
  selected_month : String.string;
  button : bool
}.

(** The outcome of lines 34-59: the messages written to the sidebar and the
    pair [latitude, longitude] ([None] for the pair [None, None]), or an
    exception that nothing catches. *)
Inductive Located : Type :=
| Resolved (messages : list SidebarMessage) (coords : option (Q * Q))
| Uncaught.

(** What [fetch_historical_weather_data] can do: return a frame or [None],
    or raise. *)
Inductive FetchResult : Type :=
| Frame (df : option DataFrame)
| FetchRaised.

Inductive QueryResult : Type :=
| QueryFailed                 (* the fetch raised: line 176 *)
| Processed (o : Outcome).

(** The main area after lines 70-178; a query records the arguments the
    weather source was called with. *)
Inductive Main : Type :=
| Idle
| InvalidLocation                                        (* line 178 *)
| Queried (latitude longitude : Q) (month start : Z) (r : QueryResult).

Inductive Page : Type :=
| ScriptError
| Rendered (sidebar : list SidebarMessage) (main : Main).

Section Script.

Variable geocode : String.string -> GeocodeResult.
Variable fetch : Q -> Q -> Z -> Z -> FetchResult.

Definition locate (i : Inputs) : Located :=
  match location_input_type i with
  | CityName =>
      if String.eqb (city_name i) ""%string then Resolved [] None
      else
        match geocode (city_name i) with
        | Location latitude longitude address =>
            Resolved [SidebarLocated address latitude longitude]
                     (Some (latitude, longitude))
        | NoMatch => Resolved [SidebarNotFound] None
        | GeocoderTimedOut | GeocoderUnavailable =>
            Resolved [SidebarTimedOut] None
        | GeocoderOtherError => Uncaught
        end
  | Coordinates => Resolved [] (Some (latitude_input i, longitude_input i))
  end.

Definition script (current_year : Z) (i : Inputs) : Page :=
  match locate i with
  | Uncaught => ScriptError
  | Resolved sidebar coords =>
      match month_number (selected_month i) with
      | Raise _ => ScriptError
      | Ok month =>
          Rendered sidebar
            (if button i then
               match coords with
               | Some (latitude, longitude) =>
                   Queried latitude longitude month (start_year current_year)
                     match fetch latitude longitude month
                                 (start_year current_year) with
                     | FetchRaised => QueryFailed
                     | Frame df => Processed (visualize df)
                     end
               | None => InvalidLocation
               end
             else Idle)
      end
  end.

End Script.

(** Sample widget states. *)
Definition march_by_coordinates : Inputs :=
  mkInputs Coordinates ""%string (40.7128) (-74.0060) "March"%string true.

Definition march_in_paris : Inputs :=
  mkInputs CityName "Paris"%string 0 0 "March"%string true.

Definition paris_address : string := "Paris, France"%string.

Definition geocode_paris (name : string) : GeocodeResult :=
  if String.eqb name "Paris"%string
  then Location (48.8566) (2.3522) paris_address
  else NoMatch.

End App.

(** ** Lines 114 and 132: the period named above the heatmap

    The subheader is formatted with the literal 1991, the figure title with
    [start_year]. *)

Definition heatmap_subheader_period (current_year : Z) : Z * Z :=
  (1991%Z, current_year).

Definition heatmap_title_period (current_year : Z) : Z * Z :=
  (start_year current_year, current_year).

(** * The mean in binary64

    [Series.mean()] on [float64] cells, with the rounding of binary64: the
    missing cells are filled with 0, the cells are added, and the sum is
    divided by the number of non-missing cells.  The cells are added from
    left to right, as numpy does for a column of fewer than 8 cells (longer
    columns are added in blocks, which this module does not follow).
    [Series.max()] and [Series.min()] select a cell and do not round. *)

Module Binary64.

Import PrimFloat.
Local Open Scope float_scope.

Definition notna (v : float) : bool := negb (is_nan v).

Definition fillna0 (v : float) : float := if is_nan v then zero else v.

Definition count (s : list float) : nat := length (filter notna s).

Fixpoint total (acc : float) (s : list float) : float :=
  match s with
  | [] => acc
  | v :: t => total (acc + fillna0 v) t
  end.

Definition of_nat (n : nat) : float := of_uint63 (Uint63.of_Z (Z.of_nat n)).

Definition Series_mean (s : list float) : float :=
  match count s with
  | O => nan
  | S _ => total zero s / of_nat (count s)
  end.

Fixpoint Series_max (s : list float) : float :=
  match s with
  | [] => nan
  | v :: t =>
      let m := Series_max t in
      if is_nan v then m
      else if is_nan m then v
      else if m <? v then v else m
  end.

Fixpoint Series_min (s : list float) : float :=
  match s with
  | [] => nan
  | v :: t =>
      let m := Series_min t in
      if is_nan v then m
      else if is_nan m then v
      else if v <? m then v else m
  end.




End Binary64.

(** * Properties *)

(** ** Labels: [sort_uniq] keeps every label once, in ascending order *)

Section Labels.

Lemma insert_uniq_In (x y : Z) (l : list Z) :
  In y (insert_uniq x l) <-> y = x \/ In y l.
Proof.
  induction l as [|a t IH]; simpl.
  - intuition.
  - destruct (Z.compare_spec x a) as [E|L|G]; simpl.
    + subst a. intuition.
    + intuition.
    + rewrite IH. intuition.
Qed.

Lemma sort_uniq_In (y : Z) (l : list Z) : In y (sort_uniq l) <-> In y l.
Proof.
  induction l as [|a t IH]; simpl.
  - reflexivity.
  - rewrite insert_uniq_In, IH. intuition.
Qed.

Lemma insert_uniq_sorted (x : Z) (l : list Z) :
  StronglySorted Z.lt l -> StronglySorted Z.lt (insert_uniq x l).
Proof.
  induction l as [|a t IH]; simpl; intros Hs.
  - constructor; [constructor | constructor].
  - inversion Hs as [|? ? Ht Ha]; subst.
    destruct (Z.compare_spec x a) as [E|L|G].
    + exact Hs.
    + constructor; [exact Hs |].
      constructor; [exact L |].
      eapply Forall_impl; [| exact Ha].
      intros z Hz. simpl in Hz. lia.
    + constructor; [apply IH; exact Ht |].
      apply Forall_forall. intros z Hz.
      apply insert_uniq_In in Hz. destruct Hz as [-> | Hz]; [lia |].
      rewrite Forall_forall in Ha. apply Ha. exact Hz.
Qed.

Lemma sort_uniq_sorted (l : list Z) : StronglySorted Z.lt (sort_uniq l).
Proof.
  induction l as [|a t IH]; simpl.
  - constructor.
  - apply insert_uniq_sorted. exact IH.
Qed.

Lemma sorted_lt_NoDup (l : list Z) : StronglySorted Z.lt l -> NoDup l.
Proof.
  induction 1 as [|a t Ht IH Ha]; constructor.
  - intros Hin. rewrite Forall_forall in Ha. specialize (Ha a Hin). lia.
  - exact IH.
Qed.

Lemma sort_uniq_NoDup (l : list Z) : NoDup (sort_uniq l).
Proof. apply sorted_lt_NoDup, sort_uniq_sorted. Qed.

(** One label per distinct value of the column. *)
Lemma sort_uniq_length (l : list Z) :
  length (sort_uniq l) = length (nodup Z.eq_dec l).
Proof.
  apply Permutation_length, NoDup_Permutation.
  - apply sort_uniq_NoDup.
  - apply NoDup_nodup.
  - intros z. rewrite sort_uniq_In, nodup_In. reflexivity.
Qed.

Lemma sort_uniq_nonempty (l : list Z) : l <> [] -> sort_uniq l <> [].
Proof.
  destruct l as [|a t]; [congruence |]. intros _ E.
  assert (H : In a (sort_uniq (a :: t))) by (apply sort_uniq_In; left; reflexivity).
  rewrite E in H. exact H.
Qed.

End Labels.

(** ** Yearly averages *)

Lemma groupby_mean_years (df : DataFrame) :
  map fst (groupby_mean df) = sort_uniq (map year df).
Proof.
  unfold groupby_mean. rewrite map_map. simpl. apply map_id.
Qed.

Lemma groupby_mean_length (df : DataFrame) :
  length (groupby_mean df) = length (sort_uniq (map year df)).
Proof. unfold groupby_mean. apply length_map. Qed.

Lemma groupby_mean_In (df : DataFrame) (y : Z) (v : fval) :
  In (y, v) (groupby_mean df) <->
  In y (map year df) /\ v = Series_mean (group df y).
Proof.
  unfold groupby_mean. rewrite in_map_iff. split.
  - intros [z [E Hz]]. inversion E; subst. rewrite sort_uniq_In in Hz.
    split; [exact Hz | reflexivity].
  - intros [Hy ->]. exists y. split; [reflexivity |].
    apply sort_uniq_In. exact Hy.
Qed.

Lemma count_all_na (s : list fval) :
  Forall (fun v => v = NaN) s -> count s = 0%nat.
Proof.
  unfold count. induction 1 as [|v t Hv _ IH]; simpl; [reflexivity |].
  subst v. simpl. exact IH.
Qed.

Lemma Series_mean_all_na (s : list fval) :
  Forall (fun v => v = NaN) s -> Series_mean s = NaN.
Proof.
  intros H. unfold Series_mean. rewrite (count_all_na s H). reflexivity.
Qed.

Lemma group_all_na (df : DataFrame) (y : Z) :
  (forall r, In r df -> year r = y -> max_temp r = NaN) ->
  Forall (fun v => v = NaN) (group df y).
Proof.
  intros H. unfold group. apply Forall_forall. intros v Hv.
  apply in_map_iff in Hv. destruct Hv as [r [<- Hr]].
  apply filter_In in Hr. destruct Hr as [Hin Hy].
  apply H; [exact Hin | apply Z.eqb_eq; exact Hy].
Qed.

(** ** The grid *)

Lemma key_eqb_eq (a b : Z * Z) : key_eqb a b = true <-> a = b.
Proof.
  destruct a as [a1 a2], b as [b1 b2]. unfold key_eqb. simpl.
  rewrite andb_true_iff, !Z.eqb_eq. split.
  - intros [-> ->]. reflexivity.
  - intros E. inversion E. tauto.
Qed.

Lemma has_duplicates_false (l : list (Z * Z)) :
  has_duplicates l = false <-> NoDup l.
Proof.
  induction l as [|k t IH]; simpl.
  - split; [constructor | reflexivity].
  - rewrite orb_false_iff, IH. split.
    + intros [Hk Ht]. constructor; [| exact Ht].
      intros Hin.
      assert (E : existsb (key_eqb k) t = true).
      { apply existsb_exists. exists k. split; [exact Hin | apply key_eqb_eq; reflexivity]. }
      congruence.
    + intros Hn. inversion Hn as [|? ? Hk Ht]; subst. split; [| exact Ht].
      destruct (existsb (key_eqb k) t) eqn:E; [| reflexivity].
      apply existsb_exists in E. destruct E as [k' [Hin Ek]].
      apply key_eqb_eq in Ek. subst k'. contradiction.
Qed.

Lemma has_duplicates_true (l : list (Z * Z)) :
  has_duplicates l = true <-> ~ NoDup l.
Proof.
  rewrite <- has_duplicates_false. destruct (has_duplicates l); split; congruence.
Qed.

Lemma cell_present (df : DataFrame) (r : Row) :
  NoDup (keys df) -> In r df -> cell df (day r) (year r) = max_temp r.
Proof.
  unfold cell, keys. induction df as [|r0 t IH]; simpl; intros Hn Hin.
  - contradiction.
  - inversion Hn as [|? ? Hk Ht]; subst.
    destruct (key_eqb (day r0, year r0) (day r, year r)) eqn:E.
    + destruct Hin as [-> | Hin]; [reflexivity |].
      apply key_eqb_eq in E. exfalso. apply Hk. rewrite E.
      apply (in_map (fun r => (day r, year r))). exact Hin.
    + destruct Hin as [-> | Hin].
      * assert (E' : key_eqb (day r, year r) (day r, year r) = true)
          by (apply key_eqb_eq; reflexivity).
        congruence.
      * apply IH; assumption.
Qed.

Lemma cell_absent (df : DataFrame) (d y : Z) :
  (forall r, In r df -> day r = d -> year r = y -> False) -> cell df d y = NaN.
Proof.
  unfold cell. intros H.
  destruct (find _ df) as [r|] eqn:E; [| reflexivity].
  apply find_some in E. destruct E as [Hin Ek].
  apply key_eqb_eq in Ek. inversion Ek. exfalso. eapply H; eauto.
Qed.

Lemma pivot_ok (df : DataFrame) :
  NoDup (keys df) ->
  pivot df =
  Ok (mkGrid (sort_uniq (map day df)) (sort_uniq (map year df))
        (map (fun d => map (fun y => cell df d y) (sort_uniq (map year df)))
             (sort_uniq (map day df)))).
Proof.
  intros Hn. unfold pivot.
  apply has_duplicates_false in Hn. rewrite Hn. reflexivity.
Qed.

Lemma pivot_raises (df : DataFrame) :
  ~ NoDup (keys df) -> pivot df = Raise ValueError.
Proof.
  intros Hn. unfold pivot.
  apply has_duplicates_true in Hn. rewrite Hn. reflexivity.
Qed.

(** ** C3 *)

(** C3, as stated, fails: in [df_missing_year] every observation of 2020 is
    missing, and 2020 is an entry of the yearly averages, with average
    [NaN]. *)
Lemma yearly_avg_keeps_all_missing_year :
  In 2020%Z (map year df_missing_year) /\
  (forall r, In r df_missing_year -> year r = 2020%Z -> max_temp r = NaN) /\
  In 2020%Z (map fst (groupby_mean df_missing_year)) /\
  In (2020%Z, NaN) (groupby_mean df_missing_year).
Proof.
  split; [simpl; tauto |]. split.
  - simpl. intros r [<- | [<- | [<- | []]]]; simpl; intros E;
      [reflexivity | reflexivity | discriminate].
  - split; vm_compute; tauto.
Qed.

(** C3 (amended): a year of the frame whose observations are all missing is
    an entry of the yearly averages, once, and its average is the missing
    marker [NaN], never a number (so never zero). *)
Theorem yearly_avg_all_missing_year (df : DataFrame) (y : Z) :
  In y (map year df) ->
  (forall r, In r df -> year r = y -> max_temp r = NaN) ->
  In (y, NaN) (groupby_mean df) /\
  (forall v, In (y, v) (groupby_mean df) -> v = NaN) /\
  NoDup (map fst (groupby_mean df)).
Proof.
  intros Hy Hall.
  assert (Hm : Series_mean (group df y) = NaN)
    by (apply Series_mean_all_na, group_all_na; exact Hall).
  split; [| split].
  - apply groupby_mean_In. split; [exact Hy | symmetry; exact Hm].
  - intros v Hv. apply groupby_mean_In in Hv. destruct Hv as [_ ->]. exact Hm.
  - rewrite groupby_mean_years. apply sort_uniq_NoDup.
Qed.

Lemma yearly_avg_all_missing_year_witness :
  In (2020%Z, NaN) (groupby_mean df_missing_year) /\
  (forall v, In (2020%Z, v) (groupby_mean df_missing_year) -> v = NaN) /\
  NoDup (map fst (groupby_mean df_missing_year)).
Proof.
  apply (yearly_avg_all_missing_year df_missing_year 2020%Z).
  - simpl. tauto.
  - simpl. intros r [<- | [<- | [<- | []]]]; simpl; intros E;
      [reflexivity | reflexivity | discriminate].
Defined.

(** ** C4 *)

(** C4: for a frame whose (day, year) pairs are unique (an Observation Set),
    the pivot succeeds; the grid has one row per distinct day and one column
    per distinct year of the frame, labelled in ascending order; and the cell
    at (day, year) is the value of the observation with that pair, and the
    missing marker [NaN] when the frame has no such observation. *)
Theorem grid_rows_columns_cells (df : DataFrame) :
  NoDup (keys df) ->
  exists g, pivot df = Ok g /\
    length (cells g) = length (nodup Z.eq_dec (map day df)) /\
    Forall (fun row => length row = length (nodup Z.eq_dec (map year df)))
           (cells g) /\
    length (index g) = length (cells g) /\
    StronglySorted Z.lt (index g) /\ StronglySorted Z.lt (columns g) /\
    (forall d, In d (index g) <-> exists r, In r df /\ day r = d) /\
    (forall y, In y (columns g) <-> exists r, In r df /\ year r = y) /\
    (forall i j d y,
        nth_error (index g) i = Some d ->
        nth_error (columns g) j = Some y ->
        exists c, grid_cell g i j = Some c /\
          (forall r, In r df -> day r = d -> year r = y -> c = max_temp r) /\
          ((forall r, In r df -> day r = d -> year r = y -> False) -> c = NaN)).
Proof.
  intros Hn. eexists. split; [apply pivot_ok; exact Hn |]. simpl.
  repeat split.
  - rewrite length_map. apply sort_uniq_length.
  - apply Forall_forall. intros row Hrow.
    apply in_map_iff in Hrow. destruct Hrow as [d [<- _]].
    rewrite length_map. apply sort_uniq_length.
  - rewrite length_map. reflexivity.
  - apply sort_uniq_sorted.
  - apply sort_uniq_sorted.
  - rewrite sort_uniq_In, in_map_iff. intros [r [E Hr]]. exists r. tauto.
  - intros [r [Hr E]]. rewrite sort_uniq_In, in_map_iff. exists r. tauto.
  - rewrite sort_uniq_In, in_map_iff. intros [r [E Hr]]. exists r. tauto.
  - intros [r [Hr E]]. rewrite sort_uniq_In, in_map_iff. exists r. tauto.
  - intros i j d y Hi Hj. exists (cell df d y). split; [| split].
    + unfold grid_cell. simpl.
      rewrite nth_error_map, Hi. simpl. rewrite nth_error_map, Hj. reflexivity.
    + intros r Hr Ed Ey. subst d y. apply cell_present; assumption.
    + apply cell_absent.
Qed.

Lemma grid_rows_columns_cells_witness :
  exists g, pivot df_february = Ok g /\
    length (cells g) = length (nodup Z.eq_dec (map day df_february)) /\
    Forall (fun row => length row = length (nodup Z.eq_dec (map year df_february)))
           (cells g) /\
    length (index g) = length (cells g) /\
    StronglySorted Z.lt (index g) /\ StronglySorted Z.lt (columns g) /\
    (forall d, In d (index g) <-> exists r, In r df_february /\ day r = d) /\
    (forall y, In y (columns g) <-> exists r, In r df_february /\ year r = y) /\
    (forall i j d y,
        nth_error (index g) i = Some d ->
        nth_error (columns g) j = Some y ->
        exists c, grid_cell g i j = Some c /\
          (forall r, In r df_february -> day r = d -> year r = y -> c = max_temp r) /\
          ((forall r, In r df_february -> day r = d -> year r = y -> False) -> c = NaN)).
Proof.
  apply (grid_rows_columns_cells df_february).
  apply has_duplicates_false. vm_compute. reflexivity.
Defined.

(** ** Comparisons of cells *)

Lemma fgt_Num (a b : Q) : fgt (Num a) (Num b) = true <-> b < a.
Proof.
  simpl. rewrite Qlt_alt, <- (Qcompare_antisym a b).
  destruct (a ?= b); simpl; split; congruence.
Qed.

Lemma flt_Num (a b : Q) : flt (Num a) (Num b) = true <-> a < b.
Proof.
  simpl. rewrite Qlt_alt. destruct (a ?= b); split; congruence.
Qed.

Lemma feqb_Num (a b : Q) : feqb (Num a) (Num b) = true <-> a == b.
Proof. simpl. apply Qeq_bool_iff. Qed.

Lemma fle_Num (a b : Q) : fle (Num a) (Num b) = true <-> a <= b.
Proof. simpl. apply Qle_bool_iff. Qed.

(** [q ?= 0] is the sign of [q]. *)
Lemma sign_eq (p q : Q) :
  (0 < p -> 0 < q) -> (p == 0 -> q == 0) -> (p < 0 -> q < 0) ->
  (p ?= 0) = (q ?= 0).
Proof.
  intros G E L.
  destruct (Qcompare_spec p 0) as [Hp|Hp|Hp];
    [specialize (E Hp) | specialize (L Hp) | specialize (G Hp)];
    symmetry; [apply Qeq_alt | apply Qlt_alt | apply Qgt_alt]; assumption.
Qed.

Lemma sign_div (n d : Q) : 0 < d -> (n / d ?= 0) = (n ?= 0).
Proof.
  intros Hd. symmetry. apply sign_eq; intros H.
  - apply Qlt_shift_div_l; [exact Hd | lra].
  - rewrite H. field. lra.
  - apply Qlt_shift_div_r; [exact Hd | lra].
Qed.

(** ** When the fit raises *)

Lemma all_zero_iff (x : list Z) :
  forallb (Z.eqb 0) x = true <-> forall z, In z x -> z = 0%Z.
Proof.
  rewrite forallb_forall. split; intros H z Hz.
  - specialize (H z Hz). apply Z.eqb_eq in H. congruence.
  - apply Z.eqb_eq. symmetry. apply H. exact Hz.
Qed.

Lemma not_all_zero_iff (x : list Z) :
  forallb (Z.eqb 0) x = false <-> exists z, In z x /\ z <> 0%Z.
Proof.
  induction x as [|a t IH]; cbn [forallb In].
  - split; [discriminate | intros [z [[] _]]].
  - rewrite andb_false_iff, IH, Z.eqb_neq. split.
    + intros [H | [z [Hz Hn]]]; [exists a | exists z]; split; auto; congruence.
    + intros [z [[E | Hz] Hn]]; [left; congruence | right; exists z; tauto].
Qed.

Lemma slope_raises (ya : YearlyAvg) :
  ya <> [] -> forallb (Z.eqb 0) (map fst ya) = true ->
  slope ya = Raise LinAlgError.
Proof.
  destruct ya as [|[x0 v0] t]; [congruence |]. intros _ H.
  unfold slope, polyfit. cbn [map fst snd] in *.
  replace (negb (length (x0 :: map fst t) =? length (v0 :: map snd t))%nat)
    with false
    by (simpl; rewrite !length_map, Nat.eqb_refl; reflexivity).
  rewrite H. reflexivity.
Qed.

Lemma slope_ok (ya : YearlyAvg) :
  forallb (Z.eqb 0) (map fst ya) = false -> exists s, slope ya = Ok s.
Proof.
  destruct ya as [|[x0 v0] t]; [discriminate |]. intros H.
  unfold slope, polyfit. cbn [map fst snd] in *.
  replace (negb (length (x0 :: map fst t) =? length (v0 :: map snd t))%nat)
    with false
    by (simpl; rewrite !length_map, Nat.eqb_refl; reflexivity).
  rewrite H.
  destruct (numeric (v0 :: map snd t)); [| eexists; reflexivity].
  destruct (Qeq_bool _ 0); eexists; reflexivity.
Qed.

Lemma years_all_zero (df : DataFrame) :
  forallb (Z.eqb 0) (map fst (groupby_mean df)) = true <->
  forall r, In r df -> year r = 0%Z.
Proof.
  rewrite all_zero_iff, groupby_mean_years. split.
  - intros H r Hr. apply H, sort_uniq_In, in_map. exact Hr.
  - intros H z Hz. apply sort_uniq_In, in_map_iff in Hz.
    destruct Hz as [r [<- Hr]]. apply H. exact Hr.
Qed.

Lemma years_not_all_zero (df : DataFrame) :
  forallb (Z.eqb 0) (map fst (groupby_mean df)) = false <->
  exists r, In r df /\ year r <> 0%Z.
Proof.
  rewrite not_all_zero_iff, groupby_mean_years. split.
  - intros [z [Hz Hn]]. apply sort_uniq_In, in_map_iff in Hz.
    destruct Hz as [r [<- Hr]]. exists r. tauto.
  - intros [r [Hr Hn]]. exists (year r). split; [| exact Hn].
    apply sort_uniq_In, in_map. exact Hr.
Qed.

Lemma groupby_mean_nonempty (df : DataFrame) : df <> [] -> groupby_mean df <> [].
Proof.
  intros Hdf E.
  assert (L : length (sort_uniq (map year df)) = 0%nat)
    by (rewrite <- groupby_mean_length, E; reflexivity).
  apply length_zero_iff_nil in L. revert L. apply sort_uniq_nonempty.
  destruct df; [congruence | discriminate].
Qed.

(** ** C6 and C10: the direction of the trend *)

(** C6, as stated, fails: the yearly averages of [df_missing_year] hold a
    [NaN], the fitted slope is [NaN], and the direction is [Stable] although
    [slope == 0] is false. *)
Lemma stable_without_zero_slope :
  exists t, trend (groupby_mean df_missing_year) = Ok t /\
            t_direction t = Stable /\
            feqb (t_slope t) (Num 0) = false.
Proof.
  exists (mkTrend NaN Stable NaN). repeat split.
Qed.

(** C6 (amended): for every slope value, the direction is [Rising] exactly
    when [slope > 0], [Falling] exactly when [slope < 0], and [Stable]
    exactly when neither holds, that is when [slope == 0] or the slope is
    [NaN]. *)
Theorem trend_direction_spec (s : fval) :
  (trend_direction s = Rising <-> fgt s (Num 0) = true) /\
  (trend_direction s = Falling <-> flt s (Num 0) = true) /\
  (trend_direction s = Stable <-> feqb s (Num 0) = true \/ s = NaN) /\
  (forall q, s = Num q ->
     (trend_direction s = Rising <-> 0 < q) /\
     (trend_direction s = Falling <-> q < 0) /\
     (trend_direction s = Stable <-> q == 0)).
Proof.
  destruct s as [q|].
  - assert (R : trend_direction (Num q) = Rising <-> 0 < q).
    { unfold trend_direction. rewrite <- fgt_Num.
      destruct (fgt (Num q) (Num 0)); [tauto |].
      destruct (flt (Num q) (Num 0)); split; congruence. }
    assert (F : trend_direction (Num q) = Falling <-> q < 0).
    { unfold trend_direction. rewrite <- flt_Num.
      destruct (fgt (Num q) (Num 0)) eqn:G.
      - apply fgt_Num in G. split; [congruence |].
        intros L. apply flt_Num in L. exfalso. lra.
      - destruct (flt (Num q) (Num 0)); split; congruence. }
    assert (S : trend_direction (Num q) = Stable <-> q == 0).
    { unfold trend_direction.
      destruct (fgt (Num q) (Num 0)) eqn:G.
      - apply fgt_Num in G. split; [congruence | intros E; exfalso; lra].
      - destruct (flt (Num q) (Num 0)) eqn:L.
        + apply flt_Num in L. split; [congruence | intros E; exfalso; lra].
        + split; [intros _ | reflexivity].
          destruct (Qlt_le_dec 0 q) as [H|H];
            [apply fgt_Num in H; congruence |].
          destruct (Qlt_le_dec q 0) as [H'|H'];
            [apply flt_Num in H'; congruence |].
          lra. }
    split; [| split; [| split]].
    + rewrite fgt_Num. exact R.
    + rewrite flt_Num. exact F.
    + rewrite feqb_Num, S. split; [tauto |].
      intros [H | H]; [exact H | discriminate].
    + intros q' E. inversion E; subst q'. tauto.
  - split; [| split; [| split]].
    + split; discriminate.
    + split; discriminate.
    + split; [intros _; right |]; reflexivity.
    + intros q E. discriminate.
Qed.

(** C10: a [NaN] slope fails both comparisons, so it is classified
    [Stable] with magnitude [NaN]; the trend widget is then emitted with
    these values and no exception reaches the handler from the fit or the
    classification (only the later pivot can still raise, on duplicate
    keys). *)
Theorem nan_slope_is_stable (df : DataFrame) :
  df <> [] ->
  slope (groupby_mean df) = Ok NaN ->
  fgt NaN (Num 0) = false /\ flt NaN (Num 0) = false /\
  trend_direction NaN = Stable /\ trend_magnitude NaN = NaN /\
  trend (groupby_mean df) = Ok (mkTrend NaN Stable NaN) /\
  exists m, m_trend m = mkTrend NaN Stable NaN /\
    (visualize (Some df) = Failed (Some m) ValueError \/
     exists g, visualize (Some df) = Displayed m (groupby_mean df) g).
Proof.
  intros Hdf Hs. repeat split.
  - unfold trend. rewrite Hs. reflexivity.
  - destruct df as [|r t]; [congruence |].
    unfold visualize. rewrite Hs.
    destruct (pivot (r :: t)) as [g|e] eqn:P.
    + eexists. split; [| right; exists g; reflexivity]. reflexivity.
    + assert (E : e = ValueError).
      { unfold pivot in P. destruct (has_duplicates _); inversion P. reflexivity. }
      subst e. eexists. split; [| left; reflexivity]. reflexivity.
Qed.

Lemma nan_slope_is_stable_witness :
  fgt NaN (Num 0) = false /\ flt NaN (Num 0) = false /\
  trend_direction NaN = Stable /\ trend_magnitude NaN = NaN /\
  trend (groupby_mean df_missing_year) = Ok (mkTrend NaN Stable NaN) /\
  exists m, m_trend m = mkTrend NaN Stable NaN /\
    (visualize (Some df_missing_year) = Failed (Some m) ValueError \/
     exists g, visualize (Some df_missing_year)
               = Displayed m (groupby_mean df_missing_year) g).
Proof.
  apply (nan_slope_is_stable df_missing_year).
  - discriminate.
  - reflexivity.
Defined.

(** ** The fit in exact arithmetic: three yearly averages on a line *)

(** The least-squares line through 2021: 20, 2022: 21, 2023: 22 has slope 1,
    which is classified [Rising] with magnitude 10.  numpy's solver works in
    binary64 and returns the slope with a rounding error in its last
    digits, so the two equalities are about the exact line, not about the
    floats the page shows. *)
Lemma three_year_trend :
  exists t, trend ya_three = Ok t /\
    t_slope t =f= Num 1 /\
    t_direction t = Rising /\
    t_magnitude t =f= Num 10 /\
    t_magnitude t =f= fmul (fabs (t_slope t)) (Num 10).
Proof.
  eexists. split; [vm_compute; reflexivity |].
  simpl. repeat split.
Qed.

(** ** C1: fewer than two yearly averages *)

(** C1, as stated, fails: [df_single_year] has data for 2020 only, its
    yearly averages have one entry, and the estimator returns a slope, a
    number classified [Rising], instead of raising. *)
Lemma single_year_returns_slope :
  (length (groupby_mean df_single_year) < 2)%nat /\
  exists t, trend (groupby_mean df_single_year) = Ok t /\
            isna (t_slope t) = false /\
            t_direction t = Rising.
Proof.
  split; [simpl; lia |].
  eexists. split; [vm_compute; reflexivity |].
  split; reflexivity.
Qed.

Lemma length_lt_2 {A : Type} (l : list A) :
  l <> [] -> (length l < 2)%nat -> exists a, l = [a].
Proof.
  destruct l as [|a [|b t]]; simpl; intros Hn Hl.
  - congruence.
  - exists a. reflexivity.
  - lia.
Qed.

Lemma inject_Z_nonzero (y : Z) : (y =? 0)%Z = false -> ~ inject_Z y == 0.
Proof.
  intros Ey E. apply Z.eqb_neq in Ey. apply Ey.
  unfold Qeq in E. simpl in E. lia.
Qed.

Lemma ls_den_single (x : Q) : Qeq_bool (ls_den [x]) 0 = true.
Proof.
  apply Qeq_bool_iff. unfold ls_den, Qnat. simpl. ring.
Qed.

Lemma single_zero (y : Z) : forallb (Z.eqb 0) [y] = (y =? 0)%Z.
Proof. cbn [forallb]. rewrite andb_true_r. apply Z.eqb_sym. Qed.

Lemma slope_single_zero (v : fval) : slope [(0%Z, v)] = Raise LinAlgError.
Proof. apply slope_raises; [discriminate | reflexivity]. Qed.

Lemma slope_single_nan (y : Z) : y <> 0%Z -> slope [(y, NaN)] = Ok NaN.
Proof.
  intros Hy. apply Z.eqb_neq in Hy.
  unfold slope, polyfit. cbn [map fst snd length Nat.eqb negb].
  rewrite single_zero, Hy. reflexivity.
Qed.

Lemma slope_single_number (y : Z) (a : Q) :
  y <> 0%Z ->
  slope [(y, Num a)] = Ok (Num (Qsum [a] / Qnat 1 / (2 * inject_Z y))).
Proof.
  intros Hy. apply Z.eqb_neq in Hy.
  unfold slope, polyfit. cbn [map fst snd length Nat.eqb negb numeric].
  rewrite single_zero, Hy, ls_den_single. reflexivity.
Qed.

Lemma sign_half (q : Q) : (q / 2 ?= 0) = (q ?= 0).
Proof. apply sign_div. lra. Qed.

(** C1 (amended): when the yearly averages of a (non-empty) frame number
    fewer than 2, they are exactly one entry [(y, v)], and no
    insufficient-data error is raised.  For [y <> 0] the estimator raises
    nothing and returns a slope, classified by the usual rule: [NaN] when
    [v] is missing, otherwise a number with the sign of [v / y].  For
    [y = 0] the fit raises [LinAlgError]. *)
Theorem single_year_trend (df : DataFrame) :
  df <> [] ->
  (length (groupby_mean df) < 2)%nat ->
  exists y v,
    groupby_mean df = [(y, v)] /\
    (y = 0%Z -> trend (groupby_mean df) = Raise LinAlgError) /\
    (y <> 0%Z ->
     exists s,
       trend (groupby_mean df)
       = Ok (mkTrend s (trend_direction s) (trend_magnitude s)) /\
       isna s = isna v /\
       forall a, v = Num a ->
         exists q, s = Num q /\ (q ?= 0) = (a / inject_Z y ?= 0)).
Proof.
  intros Hdf Hl.
  destruct (length_lt_2 (groupby_mean df) (groupby_mean_nonempty df Hdf) Hl)
    as [[y v] E].
  exists y, v. split; [exact E |]. rewrite E. unfold trend. split.
  - intros ->. rewrite slope_single_zero. reflexivity.
  - intros Hy. destruct v as [a|].
    + rewrite (slope_single_number y a Hy).
      eexists. split; [reflexivity |]. split; [reflexivity |].
      intros a' Ea. inversion Ea; subst a'.
      eexists. split; [reflexivity |].
      assert (Hq : ~ inject_Z y == 0)
        by (apply inject_Z_nonzero, Z.eqb_neq; exact Hy).
      assert (Eq : Qsum [a] / Qnat 1 / (2 * inject_Z y)
                   == a / inject_Z y / 2).
      { simpl. unfold Qnat. simpl. field. exact Hq. }
      rewrite Eq. apply sign_half.
    + rewrite (slope_single_nan y Hy).
      exists NaN. split; [reflexivity |]. split; [reflexivity |].
      intros a Ea. discriminate.
Qed.

Lemma single_year_trend_witness :
  exists y v,
    groupby_mean df_single_year = [(y, v)] /\
    (y = 0%Z -> trend (groupby_mean df_single_year) = Raise LinAlgError) /\
    (y <> 0%Z ->
     exists s,
       trend (groupby_mean df_single_year)
       = Ok (mkTrend s (trend_direction s) (trend_magnitude s)) /\
       isna s = isna v /\
       forall a, v = Num a ->
         exists q, s = Num q /\ (q ?= 0) = (a / inject_Z y ?= 0)).
Proof.
  apply (single_year_trend df_single_year).
  - discriminate.
  - simpl. lia.
Defined.

(** ** C2: what the pipeline does with malformed input *)

(** C2, as stated, fails: with the current year 2025, a frame with days 40
    and 0 in the years 1800 and 1801 goes through every stage and is
    displayed; a frame with a duplicate (year, day) pair fails only at the
    pivot, with [ValueError], after the metrics have been emitted. *)
Lemma malformed_input_not_rejected :
  in_window 2025 1800 = false /\ (31 < 40)%Z /\
  (exists m ya g, visualize (Some df_out_of_range) = Displayed m ya g) /\
  ~ NoDup (map (fun r => (year r, day r)) df_duplicate) /\
  (exists m, visualize (Some df_duplicate) = Failed (Some m) ValueError).
Proof.
  split; [reflexivity |]. split; [lia |]. split; [| split].
  - do 3 eexists. vm_compute. reflexivity.
  - intros H. inversion H as [|? ? Hin _]; subst. apply Hin. left. reflexivity.
  - eexists. vm_compute. reflexivity.
Qed.

(** C2 (amended): no stage checks the day against 1..31 or the year against
    the 30-year window.  For every non-empty frame, whatever its days and
    years: if its only year is 0 the fit of line 93 raises [LinAlgError]
    before any metric is emitted; otherwise, if no (day, year) pair is
    repeated every stage succeeds and the result is displayed, and if a pair
    is repeated the metrics are emitted and the pivot then raises
    [ValueError].  The generic handler reports either exception. *)
Theorem visualize_validation (df : DataFrame) :
  df <> [] ->
  ((forall r, In r df -> year r = 0%Z) ->
     visualize (Some df) = Failed None LinAlgError) /\
  ((exists r, In r df /\ year r <> 0%Z) ->
     (NoDup (keys df) ->
        exists m g, visualize (Some df) = Displayed m (groupby_mean df) g) /\
     (~ NoDup (keys df) ->
        exists m, visualize (Some df) = Failed (Some m) ValueError)).
Proof.
  intros Hdf. destruct df as [|r t]; [congruence |].
  split.
  - intros Hz. apply years_all_zero in Hz.
    unfold visualize.
    rewrite (slope_raises _ (groupby_mean_nonempty _ Hdf) Hz). reflexivity.
  - intros Hnz. apply years_not_all_zero in Hnz.
    destruct (slope_ok _ Hnz) as [s Hs].
    split; intros Hn; unfold visualize; rewrite Hs.
    + rewrite (pivot_ok _ Hn). do 2 eexists. reflexivity.
    + rewrite (pivot_raises _ Hn). eexists. reflexivity.
Qed.

Lemma visualize_validation_witness :
  visualize (Some df_year_zero) = Failed None LinAlgError /\
  (exists m g, visualize (Some df_out_of_range)
               = Displayed m (groupby_mean df_out_of_range) g) /\
  (exists m, visualize (Some df_duplicate) = Failed (Some m) ValueError).
Proof.
  split; [| split].
  - apply (proj1 (visualize_validation df_year_zero ltac:(discriminate))).
    simpl. intros r [<- | [<- | []]]; reflexivity.
  - apply (proj2 (visualize_validation df_out_of_range ltac:(discriminate))).
    + eexists. split; [left; reflexivity | discriminate].
    + apply has_duplicates_false. reflexivity.
  - apply (proj2 (visualize_validation df_duplicate ltac:(discriminate))).
    + eexists. split; [left; reflexivity | discriminate].
    + apply has_duplicates_true. reflexivity.
Defined.

(** ** C5 and C8: the summary metrics *)



Lemma Qnat_S (n : nat) : Qnat (S n) == Qnat n + 1.
Proof.
  unfold Qnat. rewrite Nat2Z.inj_succ, <- Z.add_1_r, inject_Z_plus. reflexivity.
Qed.

Lemma Qnat_nonneg (n : nat) : 0 <= Qnat n.
Proof.
  unfold Qnat. rewrite <- (Zle_Qle 0). lia.
Qed.

Lemma Qnat_pos (n : nat) : (0 < n)%nat -> 0 < Qnat n.
Proof.
  intros H. unfold Qnat. rewrite <- (Zlt_Qlt 0). lia.
Qed.











(** The overall mean weights every day equally: on [df_uneven] it is 1,
    while the mean of the two yearly averages (0 and 3) is 3/2. *)
Example overall_mean_is_not_mean_of_yearly_avg :
  overall_mean (summary df_uneven) =f= Num 1 /\
  Series_mean (map snd (groupby_mean df_uneven)) =f= Num (3 # 2).
Proof. split; reflexivity. Qed.




(** ** The fit in exact arithmetic: the sign of the slope of a monotonic
    table

    What follows holds for the least-squares line itself.  numpy computes
    it in binary64, and the last digits of its slope, hence the sign of a
    slope that is 0 in exact arithmetic, are outside this model. *)

Section LeastSquares.

Lemma cross_expand (x0 y0 : Q) (xs ys : list Q) :
  length xs = length ys ->
  cross x0 y0 xs ys ==
  Qdot xs ys - x0 * Qsum ys - y0 * Qsum xs + Qnat (length xs) * x0 * y0.
Proof.
  revert ys. induction xs as [|x xt IH]; intros [|y yt] Hl; try discriminate.
  - simpl. change (Qnat 0) with 0. ring.
  - cbn [cross Qdot Qsum length]. rewrite Qnat_S, IH by (simpl in Hl; lia). ring.
Qed.

Lemma ls_num_cons (x0 y0 : Q) (xs ys : list Q) :
  length xs = length ys ->
  ls_num (x0 :: xs) (y0 :: ys) == ls_num xs ys + cross x0 y0 xs ys.
Proof.
  intros Hl. rewrite (cross_expand x0 y0 xs ys Hl).
  unfold ls_num. cbn [Qdot Qsum length]. rewrite Qnat_S. ring.
Qed.

Lemma cross_nonneg (x0 y0 : Q) (xs ys : list Q) :
  Forall (Qlt x0) xs -> Forall (Qle y0) ys -> 0 <= cross x0 y0 xs ys.
Proof.
  intros Hx. revert ys. induction Hx as [|x xt Hx0 _ IH]; intros ys Hy.
  - simpl. lra.
  - destruct Hy as [|y yt Hy0 Hyt]; simpl; [lra |].
    specialize (IH yt Hyt).
    assert (0 <= (x - x0) * (y - y0)) by (apply Qmult_le_0_compat; lra).
    lra.
Qed.

Lemma cross_pos (x0 y0 d : Q) (xs ys : list Q) :
  length xs = length ys -> ys <> [] ->
  Forall (Qlt x0) xs -> Forall (Qle y0) ys ->
  y0 < last ys d -> 0 < cross x0 y0 xs ys.
Proof.
  intros Hl Hne Hx. revert ys Hl Hne.
  induction Hx as [|x xt Hx0 Hxt IH]; intros [|y yt] Hl Hne Hy Hlast;
    try discriminate; try congruence.
  inversion Hy as [|? ? Hy0 Hyt]; subst.
  cbn [cross].
  destruct yt as [|y' yt'].
  - simpl in Hlast. destruct xt; [| discriminate]. simpl.
    assert (0 < (x - x0) * (y - y0)) by (apply Qmult_lt_0_compat; lra).
    lra.
  - assert (0 < cross x0 y0 xt (y' :: yt')).
    { apply IH; [simpl in *; lia | discriminate | exact Hyt | exact Hlast]. }
    assert (0 <= (x - x0) * (y - y0)) by (apply Qmult_le_0_compat; lra).
    lra.
Qed.

Lemma cross_const (x0 y0 : Q) (xs ys : list Q) :
  Forall (fun y => y == y0) ys -> cross x0 y0 xs ys == 0.
Proof.
  intros Hy. revert xs. induction Hy as [|y yt E _ IH]; intros [|x xt]; simpl;
    try reflexivity.
  rewrite IH, E. ring.
Qed.

Lemma last_In (d : Q) (l : list Q) : l <> [] -> In (last l d) l.
Proof.
  induction l as [|a t IH]; [congruence |]. intros _.
  destruct t as [|b t']; [left; reflexivity |].
  right. apply IH. discriminate.
Qed.

Lemma sorted_le_last (d : Q) (l : list Q) :
  StronglySorted Qle l -> forall y, In y l -> y <= last l d.
Proof.
  induction 1 as [|a t Ht IH Ha]; intros y Hy; [contradiction |].
  destruct t as [|b t'].
  - destruct Hy as [<- | []]. simpl. lra.
  - change (last (a :: b :: t') d) with (last (b :: t') d).
    destruct Hy as [<- | Hy]; [| apply IH; exact Hy].
    rewrite Forall_forall in Ha. apply Ha. apply last_In. discriminate.
Qed.

(** For ascending, distinct [xs] and non-decreasing [ys], the numerator of
    the slope has the sign of [last ys - first ys]. *)
Lemma ls_num_monotone (xs ys : list Q) :
  length xs = length ys ->
  StronglySorted Qlt xs -> StronglySorted Qle ys ->
  0 <= ls_num xs ys /\
  (forall d, hd d ys < last ys d -> 0 < ls_num xs ys) /\
  (forall d, last ys d <= hd d ys -> ls_num xs ys == 0).
Proof.
  intros Hl Hx. revert ys Hl.
  induction Hx as [|x0 xt Hxt IH Hx0]; intros [|y0 yt] Hl Hy; try discriminate.
  - unfold ls_num. simpl. change (Qnat 0) with 0.
    split; [lra |]. split; [intros d H; lra | intros d _; ring].
  - inversion Hy as [|? ? Hyt Hy0]; subst.
    assert (Hl' : length xt = length yt) by (simpl in Hl; lia).
    destruct (IH yt Hl' Hyt) as [A [B C]].
    pose proof (ls_num_cons x0 y0 xt yt Hl') as E.
    pose proof (cross_nonneg x0 y0 xt yt Hx0 Hy0) as N.
    split; [lra |]. split.
    + intros d Hlt. cbn [hd] in Hlt.
      destruct yt as [|y1 yt'].
      * simpl in Hlt. lra.
      * change (last (y0 :: y1 :: yt') d) with (last (y1 :: yt') d) in Hlt.
        assert (0 < cross x0 y0 xt (y1 :: yt'))
          by (apply (cross_pos x0 y0 d); [exact Hl' | discriminate | | | ]; assumption).
        lra.
    + intros d Hle. cbn [hd] in Hle.
      destruct yt as [|y1 yt'].
      * destruct xt; [| discriminate]. rewrite E. unfold ls_num. simpl.
        change (Qnat 0) with 0. ring.
      * change (last (y0 :: y1 :: yt') d) with (last (y1 :: yt') d) in Hle.
        assert (Hall : Forall (fun y => y == y0) (y1 :: yt')).
        { apply Forall_forall. intros y Hin.
          pose proof (sorted_le_last d (y1 :: yt') Hyt y Hin) as U.
          rewrite Forall_forall in Hy0. specialize (Hy0 y Hin). lra. }
        rewrite E, (cross_const x0 y0 xt _ Hall).
        assert (Z0 : ls_num xt (y1 :: yt') == 0).
        { apply (C d). cbn [hd].
          inversion Hall as [|? ? E1 _]; subst. lra. }
        rewrite Z0. ring.
Qed.

End LeastSquares.

Section SlopeSign.

Lemma pairwise_numeric (R : Q -> Q -> Prop) (cmp : fval -> fval -> bool) :
  (forall a b, cmp a b = true -> exists x y, a = Num x /\ b = Num y /\ R x y) ->
  forall l, (2 <= length l)%nat -> pairwise cmp l = true ->
  exists ys, l = map Num ys /\ Sorted R ys.
Proof.
  intros Hc. induction l as [|a t IH]; intros Hl Hp; [simpl in Hl; lia |].
  destruct t as [|b t']; [simpl in Hl; lia |].
  cbn [pairwise] in Hp. apply andb_true_iff in Hp. destruct Hp as [Hab Hp].
  destruct (Hc a b Hab) as [x [y [-> [-> Rxy]]]].
  destruct t' as [|c t''].
  - exists [x; y]. split; [reflexivity |].
    repeat constructor. exact Rxy.
  - destruct (IH ltac:(simpl; lia) Hp) as [ys [E S]].
    destruct ys as [|y' ys']; [discriminate |].
    inversion E; subst y'.
    exists (x :: y :: ys'). split; [simpl; congruence |].
    constructor; [exact S | constructor; exact Rxy].
Qed.

Lemma numeric_map_Num (ys : list Q) : numeric (map Num ys) = Some ys.
Proof.
  induction ys as [|y t IH]; simpl; [reflexivity |]. rewrite IH. reflexivity.
Qed.

Lemma Qle_sorted_strong (ys : list Q) : Sorted Qle ys -> StronglySorted Qle ys.
Proof.
  apply Sorted_StronglySorted. intros a b c. apply Qle_trans.
Qed.

Lemma Qge_sorted_opp (ys : list Q) :
  Sorted (fun a b => b <= a) ys -> StronglySorted Qle (map Qopp ys).
Proof.
  intros S.
  assert (SS : StronglySorted (fun a b => b <= a) ys).
  { apply Sorted_StronglySorted; [| exact S].
    intros a b c Hab Hbc. apply Qle_trans with b; assumption. }
  clear S. induction SS as [|a t _ IH Ha]; simpl; constructor.
  - exact IH.
  - apply Forall_forall. intros z Hz. apply in_map_iff in Hz.
    destruct Hz as [w [<- Hw]]. rewrite Forall_forall in Ha.
    apply Qopp_le_compat, Ha, Hw.
Qed.

Lemma Zlt_sorted_inject (xs : list Z) :
  StronglySorted Z.lt xs -> StronglySorted Qlt (map inject_Z xs).
Proof.
  induction 1 as [|a t _ IH Ha]; simpl; constructor.
  - exact IH.
  - apply Forall_forall. intros z Hz. apply in_map_iff in Hz.
    destruct Hz as [w [<- Hw]]. rewrite Forall_forall in Ha.
    rewrite <- Zlt_Qlt. apply Ha, Hw.
Qed.

Lemma Qlt_sorted_le (xs : list Q) :
  StronglySorted Qlt xs -> StronglySorted Qle xs.
Proof.
  induction 1 as [|a t _ IH Ha]; constructor.
  - exact IH.
  - eapply Forall_impl; [| exact Ha]. intros z. apply Qlt_le_weak.
Qed.

(** The denominator is positive for two or more ascending, distinct years. *)
Lemma ls_den_pos (xs : list Q) :
  StronglySorted Qlt xs -> (2 <= length xs)%nat -> 0 < ls_den xs.
Proof.
  intros Hs Hl.
  destruct (ls_num_monotone xs xs eq_refl Hs (Qlt_sorted_le xs Hs)) as [_ [B _]].
  change (ls_den xs) with (ls_num xs xs).
  destruct xs as [|x0 [|x1 t]]; simpl in Hl; try lia.
  apply (B 0). cbn [hd].
  change (last (x0 :: x1 :: t) 0) with (last (x1 :: t) 0).
  inversion Hs as [|? ? _ Hx0]; subst. rewrite Forall_forall in Hx0.
  apply Hx0, last_In. discriminate.
Qed.

Lemma Qsum_opp (ys : list Q) : Qsum (map Qopp ys) == - Qsum ys.
Proof.
  induction ys as [|y t IH]; simpl; [reflexivity |]. rewrite IH. ring.
Qed.

Lemma Qdot_opp (xs ys : list Q) : Qdot xs (map Qopp ys) == - Qdot xs ys.
Proof.
  revert ys. induction xs as [|x xt IH]; intros [|y yt]; simpl;
    try reflexivity.
  rewrite IH. ring.
Qed.

Lemma ls_num_opp (xs ys : list Q) :
  ls_num xs (map Qopp ys) == - ls_num xs ys.
Proof.
  unfold ls_num. rewrite Qsum_opp, Qdot_opp. ring.
Qed.

Lemma hd_map_opp (d : Q) (ys : list Q) : hd (- d) (map Qopp ys) = - hd d ys.
Proof. destruct ys; reflexivity. Qed.

Lemma last_map_opp (d : Q) (ys : list Q) :
  last (map Qopp ys) (- d) = - last ys d.
Proof.
  induction ys as [|y t IH]; [reflexivity |].
  destruct t as [|y' t']; [reflexivity |].
  change (last (y :: y' :: t') d) with (last (y' :: t') d).
  rewrite <- IH. reflexivity.
Qed.

Lemma hd_le_last (d : Q) (ys : list Q) :
  StronglySorted Qle ys -> hd d ys <= last ys d.
Proof.
  intros S. destruct ys as [|y t]; [simpl; lra |].
  apply sorted_le_last; [exact S | left; reflexivity].
Qed.

Lemma ls_num_sign_up (xs ys : list Q) (d : Q) :
  length xs = length ys ->
  StronglySorted Qlt xs -> StronglySorted Qle ys ->
  (ls_num xs ys ?= 0) = (last ys d - hd d ys ?= 0).
Proof.
  intros Hl Hx Hy.
  destruct (ls_num_monotone xs ys Hl Hx Hy) as [A [B C]].
  pose proof (hd_le_last d ys Hy) as M.
  symmetry. apply sign_eq; intros H.
  - apply (B d). lra.
  - apply (C d). lra.
  - exfalso. lra.
Qed.

Lemma ls_num_sign_down (xs ys : list Q) (d : Q) :
  length xs = length ys ->
  StronglySorted Qlt xs -> StronglySorted Qle (map Qopp ys) ->
  (ls_num xs ys ?= 0) = (last ys d - hd d ys ?= 0).
Proof.
  intros Hl Hx Hy.
  destruct (ls_num_monotone xs (map Qopp ys)
              ltac:(rewrite length_map; exact Hl) Hx Hy) as [A [B C]].
  pose proof (hd_le_last (- d) (map Qopp ys) Hy) as M.
  pose proof (ls_num_opp xs ys) as O.
  specialize (B (- d)). specialize (C (- d)).
  rewrite hd_map_opp, last_map_opp in B, C, M.
  symmetry. apply sign_eq; intros H.
  - exfalso. lra.
  - assert (ls_num xs (map Qopp ys) == 0) by (apply C; lra). lra.
  - assert (0 < ls_num xs (map Qopp ys)) by (apply B; lra). lra.
Qed.

End SlopeSign.

Lemma hd_map_Num (d : Q) (ys : list Q) :
  ys <> [] -> hd NaN (map Num ys) = Num (hd d ys).
Proof. destruct ys; [congruence | reflexivity]. Qed.

Lemma last_map_Num (d : Q) (ys : list Q) :
  ys <> [] -> last (map Num ys) NaN = Num (last ys d).
Proof.
  induction ys as [|y t IH]; [congruence |]. intros _.
  destruct t as [|y' t']; [reflexivity |].
  change (last (y :: y' :: t') d) with (last (y' :: t') d).
  rewrite <- IH by discriminate. reflexivity.
Qed.

Lemma sorted_not_all_zero (x : list Z) :
  StronglySorted Z.lt x -> (2 <= length x)%nat ->
  forallb (Z.eqb 0) x = false.
Proof.
  intros Hs Hl. destruct x as [|a [|b t]]; simpl in Hl; try lia.
  apply not_all_zero_iff.
  inversion Hs as [|? ? _ Ha]; subst.
  inversion Ha as [|? ? Hab _]; subst.
  destruct (Z.eq_dec a 0) as [-> | Hn].
  - exists b. split; [right; left; reflexivity | lia].
  - exists a. split; [left; reflexivity | exact Hn].
Qed.

(** The fit of a table of two or more numeric averages with ascending,
    distinct years is the normal-equation slope. *)
Lemma slope_full_rank (ya : YearlyAvg) (ys : list Q) :
  StronglySorted Z.lt (map fst ya) ->
  (2 <= length ya)%nat ->
  map snd ya = map Num ys ->
  slope ya =
  Ok (Num (ls_num (map inject_Z (map fst ya)) ys
           / ls_den (map inject_Z (map fst ya)))).
Proof.
  intros Hs Hl E.
  pose proof (ls_den_pos (map inject_Z (map fst ya))
                (Zlt_sorted_inject _ Hs)
                ltac:(rewrite !length_map; exact Hl)) as D.
  pose proof (sorted_not_all_zero (map fst ya) Hs
                ltac:(rewrite length_map; exact Hl)) as NZ.
  unfold slope, polyfit. rewrite E, numeric_map_Num.
  assert (Hlen : length (map fst ya) = length (map Num ys))
    by (rewrite <- E, !length_map; reflexivity).
  rewrite Hlen, Nat.eqb_refl, NZ. cbn [negb].
  destruct (map fst ya) as [|x0 xt] eqn:Ex.
  - discriminate.
  - destruct (Qeq_bool (ls_den (map inject_Z (x0 :: xt))) 0) eqn:Q0.
    + apply Qeq_bool_iff in Q0. lra.
    + reflexivity.
Qed.

(** For a table of at least 2 yearly averages (years ascending and
    distinct, as the aggregation produces them) whose averages are
    non-decreasing or non-increasing, the exact least-squares slope has the
    sign of [last average - first average]. *)
Lemma slope_sign_monotonic (ya : YearlyAvg) :
  StronglySorted Z.lt (map fst ya) ->
  (2 <= length ya)%nat ->
  non_decreasing (map snd ya) = true \/ non_increasing (map snd ya) = true ->
  exists s a b,
    slope ya = Ok (Num s) /\
    first_avg ya = Num a /\ last_avg ya = Num b /\
    (s ?= 0) = (b - a ?= 0).
Proof.
  intros Hs Hl Hm.
  assert (Hl' : (2 <= length (map snd ya))%nat) by (rewrite length_map; exact Hl).
  assert (Hys : exists ys, map snd ya = map Num ys /\
           (StronglySorted Qle ys \/ StronglySorted Qle (map Qopp ys))).
  { destruct Hm as [Hm | Hm].
    - destruct (pairwise_numeric Qle fle) with (l := map snd ya)
        as [ys [E S]]; [| exact Hl' | exact Hm |].
      + intros [x|] [y|] H; try discriminate.
        exists x, y. repeat split. apply fle_Num. exact H.
      + exists ys. split; [exact E | left; apply Qle_sorted_strong; exact S].
    - destruct (pairwise_numeric (fun a b => b <= a) (fun a b => fle b a))
        with (l := map snd ya) as [ys [E S]]; [| exact Hl' | exact Hm |].
      + intros [x|] [y|] H; try discriminate.
        exists x, y. repeat split. apply fle_Num. exact H.
      + exists ys. split; [exact E | right; apply Qge_sorted_opp; exact S]. }
  destruct Hys as [ys [E S]].
  assert (Hne : ys <> []).
  { intros ->. rewrite E in Hl'. simpl in Hl'. lia. }
  assert (Hlen : length (map inject_Z (map fst ya)) = length ys).
  { rewrite !length_map. rewrite <- (length_map snd ya), E, length_map.
    reflexivity. }
  pose proof (Zlt_sorted_inject _ Hs) as Hx.
  pose proof (ls_den_pos _ Hx ltac:(rewrite !length_map; exact Hl)) as D.
  exists (ls_num (map inject_Z (map fst ya)) ys
          / ls_den (map inject_Z (map fst ya))), (hd 0 ys), (last ys 0).
  split; [apply slope_full_rank; assumption |].
  split; [unfold first_avg; rewrite E; apply hd_map_Num; exact Hne |].
  split; [unfold last_avg; rewrite E; apply last_map_Num; exact Hne |].
  rewrite (sign_div _ _ D).
  destruct S as [S | S].
  - apply ls_num_sign_up; assumption.
  - apply ls_num_sign_down; assumption.
Qed.

Lemma slope_sign_monotonic_witness :
  exists s a b,
    slope (groupby_mean df_rising) = Ok (Num s) /\
    first_avg (groupby_mean df_rising) = Num a /\
    last_avg (groupby_mean df_rising) = Num b /\
    (s ?= 0) = (b - a ?= 0).
Proof.
  apply (slope_sign_monotonic (groupby_mean df_rising)).
  - vm_compute. repeat constructor.
  - vm_compute. lia.
  - left. vm_compute. reflexivity.
Defined.

(** The yearly averages of any frame have ascending, distinct years. *)
Lemma groupby_mean_sorted (df : DataFrame) :
  StronglySorted Z.lt (map fst (groupby_mean df)).
Proof. rewrite groupby_mean_years. apply sort_uniq_sorted. Qed.

(** ** The fitted line is the least-squares line

    The coefficients [polyfit] returns in the full-rank case minimise the sum
    of squared residuals, which is what [np.polyfit] documents. *)

Section Residuals.

Lemma ssr_expand (a b : Q) (xs ys : list Q) :
  length xs = length ys ->
  ssr a b xs ys ==
  Qdot ys ys - 2 * a * Qdot xs ys - 2 * b * Qsum ys
  + a * a * Qdot xs xs + 2 * a * b * Qsum xs + Qnat (length xs) * b * b.
Proof.
  revert ys. induction xs as [|x xt IH]; intros [|y yt] Hl; try discriminate.
  - simpl. change (Qnat 0) with 0. ring.
  - cbn [ssr Qdot Qsum length]. rewrite Qnat_S, IH by (simpl in Hl; lia). ring.
Qed.

Lemma ls_den_length_pos (xs : list Q) : 0 < ls_den xs -> 0 < Qnat (length xs).
Proof.
  destruct xs as [|x t]; intros H.
  - unfold ls_den in H. simpl in H. change (Qnat 0) with 0 in H. lra.
  - apply Qnat_pos. simpl. lia.
Qed.

Lemma square_nonneg (q : Q) : 0 <= q * q.
Proof.
  destruct (Qlt_le_dec q 0) as [H | H].
  - setoid_replace (q * q) with ((- q) * (- q)) by ring.
    apply Qmult_le_0_compat; lra.
  - apply Qmult_le_0_compat; assumption.
Qed.

Lemma normal_equations_minimise (xs ys : list Q) (a' b' : Q) :
  length xs = length ys ->
  0 < ls_den xs ->
  let a := ls_num xs ys / ls_den xs in
  let b := (Qsum ys - a * Qsum xs) / Qnat (length xs) in
  ssr a b xs ys <= ssr a' b' xs ys.
Proof.
  intros Hl Hd a b.
  pose proof (ls_den_length_pos xs Hd) as Hn.
  set (n := Qnat (length xs)) in *.
  set (u := a' - a). set (v := b' - b).
  assert (R0 : Qsum ys - a * Qsum xs - n * b == 0).
  { unfold b. field. lra. }
  assert (R1 : n * (Qdot xs ys - a * Qdot xs xs - b * Qsum xs) == 0).
  { unfold b, a, ls_num, ls_den. fold n. field.
    unfold ls_den in Hd. fold n in Hd. split; lra. }
  assert (R1' : Qdot xs ys - a * Qdot xs xs - b * Qsum xs == 0).
  { apply (Qmult_integral_l n) in R1; [exact R1 | lra]. }
  assert (G : n * (ssr a' b' xs ys - ssr a b xs ys) ==
              (n * v + u * Qsum xs) * (n * v + u * Qsum xs)
              + u * u * ls_den xs).
  { rewrite !ssr_expand by exact Hl. fold n.
    unfold ls_den. fold n.
    setoid_replace a' with (a + u) by (unfold u; ring).
    setoid_replace b' with (b + v) by (unfold v; ring).
    assert (E0 : Qsum ys == a * Qsum xs + n * b) by lra.
    assert (E1 : Qdot xs ys == a * Qdot xs xs + b * Qsum xs) by lra.
    rewrite E0, E1. ring. }
  assert (P : 0 <= n * (ssr a' b' xs ys - ssr a b xs ys)).
  { rewrite G.
    pose proof (square_nonneg (n * v + u * Qsum xs)).
    assert (0 <= u * u * ls_den xs)
      by (apply Qmult_le_0_compat; [apply square_nonneg | lra]).
    lra. }
  assert (0 <= ssr a' b' xs ys - ssr a b xs ys).
  { destruct (Qlt_le_dec (ssr a' b' xs ys - ssr a b xs ys) 0) as [H | H];
      [| exact H].
    exfalso.
    assert (0 < n * (- (ssr a' b' xs ys - ssr a b xs ys)))
      by (apply Qmult_lt_0_compat; lra).
    lra. }
  lra.
Qed.

(** Two or more points with ascending, distinct [x] and numeric [y]: the
    coefficients [polyfit] returns minimise the sum of squared residuals. *)
Lemma polyfit_least_squares (x : list Z) (ys : list Q) (a b : Q) :
  StronglySorted Z.lt x -> (2 <= length x)%nat -> length x = length ys ->
  polyfit x (map Num ys) = Ok (Num a, Num b) ->
  forall a' b',
    ssr a b (map inject_Z x) ys <= ssr a' b' (map inject_Z x) ys.
Proof.
  intros Hs Hl Hlen Hp a' b'.
  pose proof (ls_den_pos (map inject_Z x) (Zlt_sorted_inject _ Hs)
                ltac:(rewrite length_map; exact Hl)) as D.
  pose proof (sorted_not_all_zero x Hs Hl) as NZ.
  unfold polyfit in Hp. destruct x as [|x0 xt]; [discriminate |].
  assert (E : (length (x0 :: xt) =? length (map Num ys))%nat = true)
    by (rewrite length_map, Hlen; apply Nat.eqb_refl).
  rewrite E, NZ, numeric_map_Num in Hp. cbn [negb] in Hp.
  destruct (Qeq_bool (ls_den (map inject_Z (x0 :: xt))) 0) eqn:Q0.
  - apply Qeq_bool_iff in Q0. lra.
  - inversion Hp; subst a b.
    apply (normal_equations_minimise (map inject_Z (x0 :: xt)) ys a' b');
      [rewrite length_map; exact Hlen | exact D].
Qed.

(** A single point: the line [polyfit] returns passes through it. *)
Lemma polyfit_single_point (y : Z) (v a b : Q) :
  polyfit [y] [Num v] = Ok (Num a, Num b) -> a * inject_Z y + b == v.
Proof.
  unfold polyfit. cbn [length Nat.eqb negb numeric map].
  rewrite single_zero, ls_den_single.
  destruct (y =? 0)%Z eqn:Ey; [discriminate |].
  intros H. inversion H; subst a b.
  simpl. unfold Qnat. simpl. field. apply inject_Z_nonzero. exact Ey.
Qed.

End Residuals.

(** [abs(slope * 10)] is [abs(slope) * 10]. *)
Lemma trend_magnitude_abs (s : fval) :
  trend_magnitude s =f= fmul (fabs s) (Num 10).
Proof.
  destruct s as [q|]; [| exact I].
  change (Qabs (q * 10) == Qabs q * Qabs 10). apply Qabs_Qmult.
Qed.

(** * Properties of the rest of the script *)

(** ** The month number *)

Lemma list_index_spec (s : String.string) (l : list String.string) :
  match App.list_index s l with
  | Ok i => nth_error l i = Some s /\ (i < length l)%nat
  | Raise e => e = ValueError /\ ~ In s l
  end.
Proof.
  induction l as [|x t IH]; simpl.
  - split; [reflexivity | tauto].
  - destruct (String.eqb x s) eqn:E.
    + apply String.eqb_eq in E. subst x. simpl. split; [reflexivity | lia].
    + apply String.eqb_neq in E.
      destruct (App.list_index s t) as [i|e]; simpl.
      * destruct IH as [Hn Hl]. split; [exact Hn | lia].
      * destruct IH as [He Hin]. split; [exact He |].
        intros [H | H]; [congruence | contradiction].
Qed.

Lemma month_number_bounds (s : String.string) (n : Z) :
  App.month_number s = Ok n ->
  (1 <= n <= 12)%Z /\ nth_error App.months (Z.to_nat (n - 1)) = Some s.
Proof.
  unfold App.month_number.
  pose proof (list_index_spec s App.months) as H.
  destruct (App.list_index s App.months) as [i|e]; simpl; [| discriminate].
  intros E. inversion E; subst n. destruct H as [Hn Hl].
  change (length App.months) with 12%nat in Hl.
  split; [lia |].
  replace (Z.to_nat (Z.of_nat i + 1 - 1)) with i by lia. exact Hn.
Qed.

(** X1: every option of the month selector gets a number between 1 and 12,
    and that number, read back as a position in [months], is the month that
    was selected. *)
Theorem month_number_round_trip (s : String.string) :
  In s App.months ->
  exists n, App.month_number s = Ok n /\ (1 <= n <= 12)%Z /\
            nth_error App.months (Z.to_nat (n - 1)) = Some s.
Proof.
  intros Hin.
  destruct (App.month_number s) as [n|e] eqn:E.
  - exists n. split; [reflexivity |]. apply month_number_bounds. exact E.
  - exfalso. unfold App.month_number in E.
    pose proof (list_index_spec s App.months) as H.
    destruct (App.list_index s App.months) as [i|e']; simpl in E;
      [discriminate |].
    destruct H as [_ Hn]. contradiction.
Qed.

Lemma month_number_round_trip_witness :
  exists n, App.month_number (App.selected_month App.march_by_coordinates)
            = Ok n /\ (1 <= n <= 12)%Z /\
            nth_error App.months (Z.to_nat (n - 1))
            = Some (App.selected_month App.march_by_coordinates).
Proof.
  apply (month_number_round_trip
           (App.selected_month App.march_by_coordinates)).
  simpl. tauto.
Defined.

Lemma month_number_raises (s : String.string) :
  (exists e, App.month_number s = Raise e) <-> ~ In s App.months.
Proof.
  unfold App.month_number.
  pose proof (list_index_spec s App.months) as H.
  destruct (App.list_index s App.months) as [i|e]; simpl.
  - destruct H as [Hn _]. apply nth_error_In in Hn. split.
    + intros [e E]. discriminate.
    + intros Hc. contradiction.
  - destruct H as [_ Hn]. split; [intros _; exact Hn |].
    intros _. exists e. reflexivity.
Qed.

(** ** The location and the query *)

Section ScriptProperties.

Variable geocode : String.string -> App.GeocodeResult.
Variable fetch : Q -> Q -> Z -> Z -> App.FetchResult.

(** X2: the weather source is queried only when the button was pressed and
    a location is known.  The query carries the month number (1..12) of the
    selected month and the start year [current_year - 30]; in Coordinates
    mode it carries the two number inputs, in City Name mode the coordinates
    of the location the geocoder returned for a non-empty name. *)
Theorem query_requires_location (current_year : Z) (i : App.Inputs)
    (sidebar : list App.SidebarMessage) (latitude longitude : Q)
    (month start : Z) (r : App.QueryResult) :
  App.script geocode fetch current_year i
  = App.Rendered sidebar (App.Queried latitude longitude month start r) ->
  App.button i = true /\
  start = (current_year - 30)%Z /\
  App.month_number (App.selected_month i) = Ok month /\
  (1 <= month <= 12)%Z /\
  r = match fetch latitude longitude month start with
      | App.FetchRaised => App.QueryFailed
      | App.Frame df => App.Processed (visualize df)
      end /\
  match App.location_input_type i with
  | App.Coordinates =>
      latitude = App.latitude_input i /\ longitude = App.longitude_input i
  | App.CityName =>
      App.city_name i <> String.EmptyString /\
      exists address,
        geocode (App.city_name i) = App.Location latitude longitude address /\
        sidebar = [App.SidebarLocated address latitude longitude]
  end.
Proof.
  unfold App.script. intros H.
  destruct (App.locate geocode i) as [msgs coords|] eqn:L; [| discriminate].
  destruct (App.month_number (App.selected_month i)) as [mn|e] eqn:M;
    [| discriminate].
  destruct (App.button i); [| discriminate].
  destruct coords as [[lat lon]|]; [| discriminate].
  inversion H; subst. clear H.
  split; [reflexivity |]. split; [reflexivity |]. split; [reflexivity |].
  split; [apply (month_number_bounds _ _ M) |]. split; [reflexivity |].
  unfold App.locate in L.
  destruct (App.location_input_type i).
  - destruct (String.eqb (App.city_name i) String.EmptyString) eqn:E;
      [discriminate |].
    apply String.eqb_neq in E. split; [exact E |].
    destruct (geocode (App.city_name i)) as [la lo ad| | | |];
      try discriminate.
    inversion L; subst. exists ad. split; reflexivity.
  - inversion L; subst. split; reflexivity.
Qed.

(** X3: the script dies on an exception nothing catches in two cases only:
    in City Name mode, for a non-empty name, when the geocoder raises
    something other than [GeocoderTimedOut] and [GeocoderUnavailable]; or
    when the selected month is not one of [months]. *)
Theorem script_error_iff (current_year : Z) (i : App.Inputs) :
  App.script geocode fetch current_year i = App.ScriptError <->
  (App.location_input_type i = App.CityName /\
   App.city_name i <> String.EmptyString /\
   geocode (App.city_name i) = App.GeocoderOtherError) \/
  ~ In (App.selected_month i) App.months.
Proof.
  unfold App.script, App.locate.
  pose proof (month_number_raises (App.selected_month i)) as MR.
  destruct (App.location_input_type i).
  - destruct (String.eqb (App.city_name i) String.EmptyString) eqn:E.
    + apply String.eqb_eq in E.
      destruct (App.month_number (App.selected_month i)) as [mn|e].
      * split; [discriminate |]. intros [[_ [Hc _]] | Hn]; [contradiction |].
        apply MR in Hn. destruct Hn as [e' He]. discriminate.
      * split; [intros _; right; apply MR; eexists; reflexivity | reflexivity].
    + apply String.eqb_neq in E.
      destruct (geocode (App.city_name i)) as [la lo ad| | | |];
        try (destruct (App.month_number (App.selected_month i)) as [mn|e];
             [ split; [discriminate |];
               intros [[_ [_ Hc]] | Hn]; [discriminate |];
               apply MR in Hn; destruct Hn as [e' He]; discriminate
             | split; [intros _; right; apply MR; eexists; reflexivity
                      | reflexivity] ]).
      split; [intros _; left; repeat split; assumption | reflexivity].
  - destruct (App.month_number (App.selected_month i)) as [mn|e].
    + split; [discriminate |]. intros [[Hc _] | Hn]; [discriminate |].
      apply MR in Hn. destruct Hn as [e' He]. discriminate.
    + split; [intros _; right; apply MR; eexists; reflexivity | reflexivity].
Qed.

End ScriptProperties.

Lemma query_requires_location_witness :
  App.button App.march_in_paris = true /\
  (1995 = 2025 - 30)%Z /\
  App.month_number (App.selected_month App.march_in_paris) = Ok 3%Z /\
  (1 <= 3 <= 12)%Z /\
  App.Processed NoData
  = match (fun _ _ _ _ => App.Frame None) (48.8566) (2.3522) 3%Z 1995%Z with
    | App.FetchRaised => App.QueryFailed
    | App.Frame df => App.Processed (visualize df)
    end /\
  match App.location_input_type App.march_in_paris with
  | App.Coordinates =>
      48.8566 = App.latitude_input App.march_in_paris /\
      2.3522 = App.longitude_input App.march_in_paris
  | App.CityName =>
      App.city_name App.march_in_paris <> String.EmptyString /\
      exists address,
        App.geocode_paris (App.city_name App.march_in_paris)
        = App.Location (48.8566) (2.3522) address /\
        [App.SidebarLocated App.paris_address (48.8566) (2.3522)]
        = [App.SidebarLocated address (48.8566) (2.3522)]
  end.
Proof.
  apply (query_requires_location App.geocode_paris
           (fun _ _ _ _ => App.Frame None) 2025 App.march_in_paris).
  reflexivity.
Defined.

(** ** More on the yearly averages and the metrics *)

Lemma In_non_missing (q : Q) (s : list fval) :
  In q (non_missing s) <-> In (Num q) s.
Proof.
  induction s as [|[a|] t IH]; simpl.
  - reflexivity.
  - rewrite IH. split; intros [H | H]; auto; left; congruence.
  - rewrite IH. split; [auto | intros [H | H]; [discriminate | exact H]].
Qed.

Lemma In_group (v : fval) (df : DataFrame) (y : Z) :
  In v (group df y) <-> exists r, In r df /\ year r = y /\ max_temp r = v.
Proof.
  unfold group. rewrite in_map_iff. split.
  - intros [r [E Hr]]. apply filter_In in Hr. destruct Hr as [Hin Hy].
    apply Z.eqb_eq in Hy. exists r. tauto.
  - intros [r [Hin [Hy E]]]. exists r. split; [exact E |].
    apply filter_In. split; [exact Hin | apply Z.eqb_eq; exact Hy].
Qed.

Lemma group_incl (q : Q) (df : DataFrame) (y : Z) :
  In q (non_missing (group df y)) -> In q (non_missing (map max_temp df)).
Proof.
  rewrite !In_non_missing, In_group, in_map_iff.
  intros [r [Hin [_ E]]]. exists r. tauto.
Qed.




(** ** Total years, grid columns and the trend of a frame with a missing
    year *)

(** X6: whenever the result is displayed, "Total Years of Data" is the number
    of distinct years of the frame (a year whose observations are all
    missing counts), it is the number of columns of the heatmap, whose
    column labels are the years of the yearly averages, and it lies between
    1 and the number of rows. *)
Theorem total_years_displayed (df : DataFrame) (m : Metrics)
    (ya : YearlyAvg) (g : Grid) :
  visualize (Some df) = Displayed m ya g ->
  m_total_years m = length (nodup Z.eq_dec (map year df)) /\
  m_total_years m = length (columns g) /\
  columns g = map fst ya /\
  (1 <= m_total_years m <= length df)%nat.
Proof.
  intros H. unfold visualize in H.
  destruct df as [|r t]; [discriminate |].
  set (df := r :: t) in *.
  destruct (slope (groupby_mean df)) as [s|e]; [| discriminate].
  unfold pivot in H.
  destruct (has_duplicates (keys df)); [discriminate |].
  inversion H; subst m ya g. clear H. cbn [m_total_years columns].
  rewrite groupby_mean_length, groupby_mean_years.
  split; [apply sort_uniq_length |]. split; [reflexivity |].
  split; [reflexivity |].
  rewrite sort_uniq_length. split.
  - assert (Hin : In (year r) (nodup Z.eq_dec (map year df)))
      by (apply nodup_In; left; reflexivity).
    destruct (nodup Z.eq_dec (map year df)); [contradiction | simpl; lia].
  - rewrite <- (length_map year df).
    apply NoDup_incl_length; [apply NoDup_nodup |].
    intros z Hz. apply nodup_In in Hz. exact Hz.
Qed.

Lemma total_years_displayed_witness :
  3%nat = length (nodup Z.eq_dec (map year df_february)) /\
  3%nat = length [2019%Z; 2020%Z; 2021%Z] /\
  [2019%Z; 2020%Z; 2021%Z] = map fst (groupby_mean df_february) /\
  (1 <= 3 <= length df_february)%nat.
Proof.
  destruct (visualize (Some df_february)) as [| |m ya g] eqn:E;
    [discriminate | discriminate |].
  pose proof (total_years_displayed df_february m ya g E) as H.
  vm_compute in E. inversion E; subst m ya g. exact H.
Defined.

Lemma numeric_In_nan (s : list fval) : In NaN s -> numeric s = None.
Proof.
  induction s as [|[q|] t IH]; simpl; intros H.
  - contradiction.
  - destruct H as [H | H]; [discriminate |]. rewrite (IH H). reflexivity.
  - reflexivity.
Qed.

Lemma slope_with_nan (ya : YearlyAvg) :
  forallb (Z.eqb 0) (map fst ya) = false ->
  In NaN (map snd ya) -> slope ya = Ok NaN.
Proof.
  intros NZ H. unfold slope, polyfit.
  destruct ya as [|[x0 v0] t]; [contradiction |].
  cbn [map fst snd] in *.
  replace (negb (length (x0 :: map fst t) =? length (v0 :: map snd t))%nat)
    with false
    by (simpl; rewrite !length_map, Nat.eqb_refl; reflexivity).
  rewrite NZ, (numeric_In_nan _ H). reflexivity.
Qed.

(** X7: in a frame that has a year other than 0, one year without any
    non-missing observation blanks the whole trend: whatever the other
    years hold, the slope is [NaN], the direction shown is [Stable] and the
    magnitude is [NaN]. *)
Theorem missing_year_blanks_trend (df : DataFrame) (y : Z) :
  In y (map year df) ->
  (forall r, In r df -> year r = y -> max_temp r = NaN) ->
  (exists r, In r df /\ year r <> 0%Z) ->
  trend (groupby_mean df) = Ok (mkTrend NaN Stable NaN).
Proof.
  intros Hy Hall Hnz. apply years_not_all_zero in Hnz.
  assert (Hin : In (y, NaN) (groupby_mean df)).
  { apply groupby_mean_In. split; [exact Hy |].
    symmetry. apply Series_mean_all_na, group_all_na. exact Hall. }
  unfold trend. rewrite slope_with_nan; [reflexivity | exact Hnz |].
  apply in_map_iff. exists (y, NaN). split; [reflexivity | exact Hin].
Qed.

Lemma missing_year_blanks_trend_witness :
  trend (groupby_mean df_missing_year) = Ok (mkTrend NaN Stable NaN).
Proof.
  apply (missing_year_blanks_trend df_missing_year 2020%Z).
  - simpl. tauto.
  - simpl. intros r [<- | [<- | [<- | []]]]; simpl; intros E;
      [reflexivity | reflexivity | discriminate].
  - eexists. split; [left; reflexivity | discriminate].
Defined.

(** ** Direction and magnitude *)

Lemma trend_direction_stable_iff (q : Q) :
  trend_direction (Num q) = Stable <-> q == 0.
Proof.
  unfold trend_direction.
  destruct (fgt (Num q) (Num 0)) eqn:G.
  - apply fgt_Num in G. split; [discriminate | intros E; exfalso; lra].
  - destruct (flt (Num q) (Num 0)) eqn:L.
    + apply flt_Num in L. split; [discriminate | intros E; exfalso; lra].
    + split; [intros _ | reflexivity].
      destruct (Qlt_le_dec 0 q) as [H | H];
        [apply fgt_Num in H; congruence |].
      destruct (Qlt_le_dec q 0) as [H' | H'];
        [apply flt_Num in H'; congruence |].
      lra.
Qed.

(** X8: for a slope that is a number the magnitude per decade is a
    non-negative number, and it is 0 exactly when the direction is
    [Stable]: a [Rising] or [Falling] trend always has a positive
    magnitude. *)
Theorem magnitude_zero_iff_stable (q : Q) :
  exists m, trend_magnitude (Num q) = Num m /\ 0 <= m /\
            (m == 0 <-> trend_direction (Num q) = Stable).
Proof.
  exists (Qabs (q * 10)). split; [reflexivity |].
  split; [apply Qabs_nonneg |].
  rewrite trend_direction_stable_iff.
  destruct (Qlt_le_dec (q * 10) 0) as [H | H].
  - rewrite (Qabs_neg (q * 10)) by lra. split; intros E; lra.
  - rewrite (Qabs_pos (q * 10)) by lra. split; intros E; lra.
Qed.

(** ** The period named above the heatmap *)

(** X9: the subheader above the heatmap names the period 1991 to the
    current year; it agrees with the period of the figure title, which
    starts at [current_year - 30], in the year 2021 only. *)
Theorem heatmap_periods_agree_iff (current_year : Z) :
  heatmap_subheader_period current_year = heatmap_title_period current_year
  <-> current_year = 2021%Z.
Proof.
  unfold heatmap_subheader_period, heatmap_title_period, start_year. split.
  - intros E. inversion E. lia.
  - intros ->. reflexivity.
Qed.

(** ** The order of the rows does not matter *)

Section RowOrder.

Lemma sorted_lt_ext (l1 l2 : list Z) :
  StronglySorted Z.lt l1 -> StronglySorted Z.lt l2 ->
  (forall z, In z l1 <-> In z l2) -> l1 = l2.
Proof.
  intros S1. revert l2.
  induction S1 as [|a1 t1 St1 IH Ha1]; intros l2 S2 Hext.
  - destruct l2 as [|a2 t2]; [reflexivity |].
    exfalso. apply (Hext a2). left. reflexivity.
  - destruct S2 as [|a2 t2 St2 Ha2].
    + exfalso. apply (Hext a1). left. reflexivity.
    + rewrite Forall_forall in Ha1, Ha2.
      assert (E : a1 = a2).
      { assert (H1 : In a1 (a2 :: t2)) by (apply Hext; left; reflexivity).
        assert (H2 : In a2 (a1 :: t1)) by (apply Hext; left; reflexivity).
        destruct H1 as [H1 | H1]; [congruence |].
        destruct H2 as [H2 | H2]; [congruence |].
        specialize (Ha1 _ H2). specialize (Ha2 _ H1). lia. }
      subst a2. f_equal. apply IH; [exact St2 |].
      intros z. split; intros Hz.
      * assert (H : In z (a1 :: t2)) by (apply Hext; right; exact Hz).
        destruct H as [H | H]; [| exact H].
        subst z. specialize (Ha1 _ Hz). lia.
      * assert (H : In z (a1 :: t1)) by (apply Hext; right; exact Hz).
        destruct H as [H | H]; [| exact H].
        subst z. specialize (Ha2 _ Hz). lia.
Qed.

Lemma sort_uniq_ext (l l' : list Z) :
  (forall z, In z l <-> In z l') -> sort_uniq l = sort_uniq l'.
Proof.
  intros H. apply sorted_lt_ext; try apply sort_uniq_sorted.
  intros z. rewrite !sort_uniq_In. apply H.
Qed.

Lemma sort_uniq_perm {A : Type} (f : A -> Z) (l l' : list A) :
  Permutation l l' -> sort_uniq (map f l) = sort_uniq (map f l').
Proof.
  intros P. apply sort_uniq_ext. intros z. split; apply Permutation_in.
  - apply Permutation_map. exact P.
  - apply Permutation_map, Permutation_sym. exact P.
Qed.

Lemma cell_perm (df df' : DataFrame) (d y : Z) :
  NoDup (keys df) -> Permutation df df' -> cell df d y = cell df' d y.
Proof.
  intros Hn P.
  assert (Hn' : NoDup (keys df')).
  { apply (Permutation_NoDup (l := keys df)); [| exact Hn].
    apply Permutation_map. exact P. }
  destruct (find (fun r => key_eqb (day r, year r) (d, y)) df) as [r|] eqn:F.
  - pose proof (find_some _ _ F) as [Hin Hk].
    apply key_eqb_eq in Hk. inversion Hk; subst d y.
    rewrite (cell_present df r Hn Hin).
    symmetry. apply cell_present; [exact Hn' |].
    apply (Permutation_in _ P). exact Hin.
  - unfold cell at 1. rewrite F. symmetry. apply cell_absent.
    intros r Hr Hd Hy.
    assert (Hin : In r df) by (apply (Permutation_in _ (Permutation_sym P)); exact Hr).
    pose proof (find_none _ _ F r Hin) as Hk. simpl in Hk.
    subst d y.
    assert (Ht : key_eqb (day r, year r) (day r, year r) = true)
      by (apply key_eqb_eq; reflexivity).
    congruence.
Qed.

(** X10: the heatmap grid does not depend on the order of the rows of the
    frame: two frames with the same rows in a different order give the same
    grid, or both make the pivot raise. *)
Theorem pivot_row_order (df df' : DataFrame) :
  Permutation df df' -> pivot df = pivot df'.
Proof.
  intros P.
  assert (Pk : Permutation (keys df) (keys df'))
    by (apply Permutation_map; exact P).
  unfold pivot.
  destruct (has_duplicates (keys df)) eqn:D.
  - apply has_duplicates_true in D.
    assert (D' : has_duplicates (keys df') = true).
    { apply has_duplicates_true. intros Hn. apply D.
      apply (Permutation_NoDup (Permutation_sym Pk)). exact Hn. }
    rewrite D'. reflexivity.
  - apply has_duplicates_false in D.
    assert (D' : has_duplicates (keys df') = false).
    { apply has_duplicates_false. apply (Permutation_NoDup Pk). exact D. }
    rewrite D'.
    rewrite <- (sort_uniq_perm day df df' P), <- (sort_uniq_perm year df df' P).
    do 2 f_equal. apply map_ext. intros d. apply map_ext. intros y.
    apply cell_perm; assumption.
Qed.

Lemma pivot_row_order_witness :
  pivot df_february = pivot (rev df_february).
Proof.
  apply (pivot_row_order df_february (rev df_february)).
  apply Permutation_rev.
Defined.







End RowOrder.

(** ** The grid holds the observations, and nothing else *)

(** X12: when the pivot succeeds, the numbers in the cells of the grid are
    exactly the non-missing values of the observations: nothing is lost and
    nothing is invented. *)
Theorem grid_holds_the_observations (df : DataFrame) (g : Grid) :
  pivot df = Ok g ->
  forall q,
    (exists i j, grid_cell g i j = Some (Num q)) <->
    (exists r, In r df /\ max_temp r = Num q).
Proof.
  intros Hp q. unfold pivot in Hp.
  destruct (has_duplicates (keys df)) eqn:D; [discriminate |].
  apply has_duplicates_false in D.
  inversion Hp; subst g. clear Hp. unfold grid_cell. cbn [cells].
  split.
  - intros [i [j H]]. rewrite nth_error_map in H.
    destruct (nth_error (sort_uniq (map day df)) i) as [d|]; [| discriminate].
    simpl in H. rewrite nth_error_map in H.
    destruct (nth_error (sort_uniq (map year df)) j) as [y|]; [| discriminate].
    simpl in H. injection H as Hc. unfold cell in Hc.
    destruct (find (fun r => key_eqb (day r, year r) (d, y)) df) as [r|] eqn:F;
      [| discriminate].
    apply find_some in F. destruct F as [Hin _].
    exists r. split; [exact Hin | exact Hc].
  - intros [r [Hin Hv]].
    assert (Hd : In (day r) (sort_uniq (map day df)))
      by (apply sort_uniq_In, in_map; exact Hin).
    assert (Hy : In (year r) (sort_uniq (map year df)))
      by (apply sort_uniq_In, in_map; exact Hin).
    apply In_nth_error in Hd. destruct Hd as [i Hi].
    apply In_nth_error in Hy. destruct Hy as [j Hj].
    exists i, j. rewrite nth_error_map, Hi. simpl.
    rewrite nth_error_map, Hj. simpl.
    rewrite (cell_present df r D Hin). congruence.
Qed.

Lemma grid_holds_the_observations_witness :
  (exists i j,
     grid_cell (mkGrid [28%Z; 29%Z] [2019%Z; 2020%Z; 2021%Z]
                  [[Num 4; Num 5; NaN]; [NaN; Num 6; NaN]]) i j
     = Some (Num 6)) <->
  (exists r, In r df_february /\ max_temp r = Num 6).
Proof.
  apply (grid_holds_the_observations df_february
           (mkGrid [28%Z; 29%Z] [2019%Z; 2020%Z; 2021%Z]
              [[Num 4; Num 5; NaN]; [NaN; Num 6; NaN]])
           ltac:(reflexivity) 6).
Defined.

(** ** The direction shown for a single year *)

Lemma trend_direction_compare (p q : Q) :
  (p ?= 0) = (q ?= 0) ->
  trend_direction (Num p) = trend_direction (Num q).
Proof.
  intros E. unfold trend_direction, fgt, flt. rewrite E. reflexivity.
Qed.

(** X17: with data for a single year (a positive year number) and a numeric
    average, the fit returns a number with the sign of the average itself:
    the direction shown is [Rising] for an average above 0, [Falling] for
    one below 0 and [Stable] for 0. *)
Theorem single_year_direction (y : Z) (v : Q) :
  (0 < y)%Z ->
  exists s, slope [(y, Num v)] = Ok (Num s) /\
            trend_direction (Num s) = trend_direction (Num v).
Proof.
  intros Hy. unfold slope, polyfit.
  cbn [map fst snd length Nat.eqb negb numeric].
  assert (Ey : (y =? 0)%Z = false) by (apply Z.eqb_neq; lia).
  rewrite single_zero, Ey, ls_den_single. cbn [bind fst].
  eexists. split; [reflexivity |].
  apply trend_direction_compare.
  assert (D : 0 < 2 * inject_Z y).
  { assert (0 < inject_Z y) by (rewrite <- (Zlt_Qlt 0); exact Hy). lra. }
  rewrite (sign_div _ _ D).
  assert (N1 : 0 < Qnat (length [inject_Z y])) by (apply Qnat_pos; simpl; lia).
  rewrite (sign_div _ _ N1).
  simpl Qsum. apply sign_eq; intros H; lra.
Qed.

Lemma single_year_direction_witness :
  exists s, slope [(2020%Z, Num (- (3)))] = Ok (Num s) /\
            trend_direction (Num s) = trend_direction (Num (- (3))).
Proof.
  apply (single_year_direction 2020 (- (3))). lia.
Defined.
